(** * Order matching of the 0x Exchange contract (MixinMatchOrders.sol)
      and signature negotiation of the 0x.js entry point (ZeroEx class)

    The Solidity mixin is embedded as functions over [Z] holding 256-bit
    unsigned words; the [*] operator of Solidity 0.4 wraps modulo 2^256 and
    is written out as such.  A transaction that hits a failing [require],
    [assert] or SafeMath guard reverts: it yields [None] and leaves no
    trace.  Calls that leave the mixin (status resolver, settlement, ledger
    update, event emission) are recorded, in order, in a trace. *)

From Stdlib Require Import ZArith Lia List Bool Ascii String.
From Stdlib Require Import QArith Qround Qpower.
From stdpp Require Import base option gmap.
Import ListNotations.

Local Open Scope Z_scope.

(* ===================================================================== *)
(** * Machine words *)
(* ===================================================================== *)

Module Word.

Definition modulus : Z := 2 ^ 256.
Definition max_uint256 : Z := modulus - 1.

(** [uint256] membership, as a decidable test. *)
Definition is_uint256 (a : Z) : bool := (0 <=? a) && (a <? modulus).

(** Solidity 0.4 [a * b] on [uint256]: the low 256 bits of the product. *)
Definition mul (a b : Z) : Z := (a * b) mod modulus.

(** The product as a natural number does not fit 256 bits. *)
Definition mul_overflows (a b : Z) : bool := modulus <=? a * b.

End Word.

(* ===================================================================== *)
(** * SafeMath and LibPartialAmount *)
(* ===================================================================== *)

Module SafeMath.

(** Modelled from the spec: SafeMath.sol is imported by the mixin but is
    not among the sources.  The spec has [remaining = takerAmount -
    filledAmount] with [filledAmount <= takerAmount] an invariant whose
    violation is fatal, and every overflowing multiplication fatal.
    [None] is the revert. *)
Definition safeSub (a b : Z) : option Z :=
  if b <=? a then Some (a - b) else None.

Definition safeMul (a b : Z) : option Z :=
  if Word.mul_overflows a b then None else Some (a * b).

Definition safeDiv (a b : Z) : option Z :=
  if b =? 0 then None else Some (a / b).

End SafeMath.

Module LibPartialAmount.

(** Modelled from the spec: LibPartialAmount is imported by the mixin but
    is not among the sources.  The spec describes the computation as
    [amount * numerator / denominator], truncating toward zero, with an
    overflowing product fatal.  The argument order (numerator,
    denominator, target) is the one of the call on line 77. *)
Definition getPartialAmount (numerator denominator target : Z) : option Z :=
  match SafeMath.safeMul numerator target with
  | Some p => SafeMath.safeDiv p denominator
  | None => None
  end.

End LibPartialAmount.

(* ===================================================================== *)
(** * The Exchange mixin *)
(* ===================================================================== *)

Module Exchange.

Definition bytes := list Byte.byte.

(** LibOrder.sol is not among the sources.  The four fields the mixin
    reads keep the names it uses; the others follow the data model of the
    spec (maker, fees, fee recipient, salt, expiration). *)
Record Order := mkOrder {
  makerAddress : Z;
  makerTokenAddress : Z;
  takerTokenAddress : Z;
  makerTokenAmount : Z;
  takerTokenAmount : Z;
  makerFeeAmount : Z;
  takerFeeAmount : Z;
  feeRecipientAddress : Z;
  salt : Z;
  expirationTimeSeconds : Z
}.

(** [MatchedOrderFillAmounts] with the eight fields the mixin assigns. *)
Record MatchedOrderFillAmounts := mkAmounts {
  leftMakerTokenFilledAmount : Z;
  leftTakerTokenFilledAmount : Z;
  leftMakerFeeAmountPaid : Z;
  leftTakerFeeAmountPaid : Z;
  rightMakerTokenFilledAmount : Z;
  rightTakerTokenFilledAmount : Z;
  rightMakerFeeAmountPaid : Z;
  rightTakerFeeAmountPaid : Z
}.

(** What right's maker releases beyond what left's maker takes in, both
    in the asset that right sells and left buys. *)
Definition residual (m : MatchedOrderFillAmounts) : Z :=
  rightMakerTokenFilledAmount m - leftTakerTokenFilledAmount m.

(** A [memory] struct starts zeroed. *)
Definition zeroAmounts : MatchedOrderFillAmounts :=
  mkAmounts 0 0 0 0 0 0 0 0.

Definition setLeft (m : MatchedOrderFillAmounts) (mk tk mf tf : Z)
  : MatchedOrderFillAmounts :=
  mkAmounts mk tk mf tf
    (rightMakerTokenFilledAmount m) (rightTakerTokenFilledAmount m)
    (rightMakerFeeAmountPaid m) (rightTakerFeeAmountPaid m).

Definition setRight (m : MatchedOrderFillAmounts) (mk tk mf tf : Z)
  : MatchedOrderFillAmounts :=
  mkAmounts
    (leftMakerTokenFilledAmount m) (leftTakerTokenFilledAmount m)
    (leftMakerFeeAmountPaid m) (leftTakerFeeAmountPaid m)
    mk tk mf tf.

(** What one call of [getFillAmounts] hands back: status, maker amount,
    taker amount, maker fee, taker fee. *)
Definition FillAmounts : Type := (Z * Z * Z * Z * Z)%type.

(** Calls that leave the mixin, as they appear in a transaction. *)
Inductive Call :=
| QueryOrderStatus (order : Order) (signature : bytes)
| EmitExchangeStatus (status orderHash : Z)
| SettleMatchedOrders (left right : Order)
    (amounts : MatchedOrderFillAmounts) (takerAddress : Z)
| UpdateFilledState (order : Order) (orderHash : Z)
    (makerFilled takerFilled makerFeePaid takerFeePaid : Z).

Definition isSettle (c : Call) : bool :=
  match c with SettleMatchedOrders _ _ _ _ => true | _ => false end.

Definition isLedgerUpdate (c : Call) : bool :=
  match c with UpdateFilledState _ _ _ _ _ _ => true | _ => false end.

Definition isStatusQuery (c : Call) : bool :=
  match c with QueryOrderStatus _ _ => true | _ => false end.

(** The trace of a transaction that settled and wrote both entries. *)
Definition matchedTrace (left right : Order) (leftSignature : bytes)
    (leftOrderHash takerAddress : Z) (m : MatchedOrderFillAmounts)
  : list Call :=
  [ QueryOrderStatus left leftSignature;
    QueryOrderStatus left leftSignature;
    SettleMatchedOrders left right m takerAddress;
    UpdateFilledState left leftOrderHash
      (leftMakerTokenFilledAmount m) (leftTakerTokenFilledAmount m)
      (leftMakerFeeAmountPaid m) (leftTakerFeeAmountPaid m);
    UpdateFilledState right 0
      (rightMakerTokenFilledAmount m) (rightTakerTokenFilledAmount m)
      (rightMakerFeeAmountPaid m) (rightTakerFeeAmountPaid m) ].

(** require(left.makerTokenAddress == right.takerTokenAmount);
    require(left.takerTokenAddress == right.makerTokenAmount);
    require(left.makerTokenAmount * right.makerTokenAmount >=
            left.takerTokenAmount * right.takerTokenAmount);
    [true] when all three pass, [false] when the call reverts.  The
    right-hand sides of the first two are the amount fields, as written
    (Solidity 0.4 converts the address to an integer for the test). *)
Definition validateMatchOrdersContextOrRevert (left right : Order) : bool :=
  (makerTokenAddress left =? takerTokenAmount right)
  && (takerTokenAddress left =? makerTokenAmount right)
  && (Word.mul (makerTokenAmount left) (makerTokenAmount right)
      >=? Word.mul (takerTokenAmount left) (takerTokenAmount right)).

(** The test of line 56, on the two remaining capacities. *)
Definition leftIsConstraint (right : Order) (leftRemaining rightRemaining : Z)
  : bool :=
  Word.mul (makerTokenAmount right) rightRemaining
  <? Word.mul (takerTokenAmount right) leftRemaining.

Section Mixin.

(** Contract storage reached through the other mixins. *)
Variable Storage : Type.

(** LibStatus.sol is not among the sources: the two enum members the
    mixin compares against. *)
Variable SUCCESS : Z.
Variable ORDER_FILLABLE : Z.

(** MExchangeCore / MSettlement, not among the sources.
    [getOrderStatus] is a view and returns (orderHash, status,
    filledAmount) in the order the mixin destructures it. *)
Variable getOrderStatus : Storage -> Order -> bytes -> Z * Z * Z.
Variable getFillAmounts : Order -> Z -> Z -> Z -> option FillAmounts.
Variable getCurrentContextAddress : Storage -> Z.
Variable settleMatchedOrders :
  Order -> Order -> MatchedOrderFillAmounts -> Z -> Storage -> option Storage.
Variable updateFilledState :
  Order -> Z -> Z -> Z -> Z -> Z -> Storage -> option Storage.

(** [msg.sender] of the running transaction. *)
Variable msg_sender : Z.

(** ** getMatchedFillAmounts *)

(** Lines 59-102.  [return status;] leaves the function with the
    amounts assigned so far. *)
Definition fillLeftConstrained (left right : Order)
    (leftRemaining takerTokenFillAmount : Z)
  : option (Z * MatchedOrderFillAmounts) :=
  match getFillAmounts left leftRemaining takerTokenFillAmount msg_sender with
  | None => None
  | Some (status, lmk, ltk, lmf, ltf) =>
    let m := setLeft zeroAmounts lmk ltk lmf ltf in
    if negb (status =? SUCCESS) then Some (status, m) else
    match LibPartialAmount.getPartialAmount
            (makerTokenAmount right) (takerTokenAmount right)
            (leftMakerTokenFilledAmount m) with
    | None => None
    | Some rightFill =>
      match getFillAmounts right rightFill takerTokenFillAmount msg_sender with
      | None => None
      | Some (status, rmk, rtk, rmf, rtf) =>
        let m := setRight m rmk rtk rmf rtf in
        if negb (status =? SUCCESS) then Some (status, m) else
        if rightMakerTokenFilledAmount m >=? leftTakerTokenFilledAmount m
        then Some (status, m)
        else None
      end
    end
  end.

(** Lines 105-139.  Line 121 names [remaingLeft] and line 139 names a
    bare [leftTakerTokenFilledAmount]; neither is declared anywhere, and
    they are read as [leftRemaining] and as the field of the same name
    of [matchedFillOrderAmounts]. *)
Definition fillRightConstrained (left right : Order)
    (leftRemaining rightRemaining takerTokenFillAmount : Z)
  : option (Z * MatchedOrderFillAmounts) :=
  match getFillAmounts right rightRemaining takerTokenFillAmount msg_sender with
  | None => None
  | Some (status, rmk, rtk, rmf, rtf) =>
    let m := setRight zeroAmounts rmk rtk rmf rtf in
    if negb (status =? SUCCESS) then Some (status, m) else
    if negb (rightMakerTokenFilledAmount m <=? leftRemaining) then None else
    match getFillAmounts left (rightMakerTokenFilledAmount m)
            takerTokenFillAmount msg_sender with
    | None => None
    | Some (status, lmk, ltk, lmf, ltf) =>
      let m := setLeft m lmk ltk lmf ltf in
      if negb (status =? SUCCESS) then Some (status, m) else
      if rightMakerTokenFilledAmount m =? leftTakerTokenFilledAmount m
      then Some (status, m)
      else None
    end
  end.

Definition getMatchedFillAmounts (left right : Order)
    (leftFilledAmount rightFilledAmount takerTokenFillAmount : Z)
  : option (Z * MatchedOrderFillAmounts) :=
  match SafeMath.safeSub (takerTokenAmount left) leftFilledAmount with
  | None => None
  | Some leftRemaining =>
    match SafeMath.safeSub (takerTokenAmount right) rightFilledAmount with
    | None => None
    | Some rightRemaining =>
      if leftIsConstraint right leftRemaining rightRemaining
      then fillLeftConstrained left right leftRemaining takerTokenFillAmount
      else fillRightConstrained left right leftRemaining rightRemaining
             takerTokenFillAmount
    end
  end.

(** ** The transaction monad *)

Record Machine := mkMachine {
  storage : Storage;
  trace : list Call
}.

Definition M (A : Type) : Type := Machine -> option (A * Machine).

Definition ret {A} (a : A) : M A := fun s => Some (a, s).

Definition bind {A B} (c : M A) (k : A -> M B) : M B :=
  fun s => match c s with
           | Some (a, s') => k a s'
           | None => None
           end.

Definition revert {A} : M A := fun _ => None.

Definition record (c : Call) : M unit :=
  fun s => Some (tt, mkMachine (storage s) (trace s ++ [c])).

Definition liftOption {A} (o : option A) : M A :=
  match o with Some a => ret a | None => revert end.

Definition require (b : bool) : M unit :=
  if b then ret tt else revert.

Definition mutate (f : Storage -> option Storage) : M unit :=
  fun s => match f (storage s) with
           | Some st => Some (tt, mkMachine st (trace s))
           | None => None
           end.

Local Notation "'let*' x ':=' c 'in' k" := (bind c (fun x => k))
  (at level 10, x pattern, c at level 100, k at level 200).

(** One call of [getOrderStatus]: the view is read and the call is
    recorded. *)
Definition callGetOrderStatus (order : Order) (signature : bytes)
  : M (Z * Z * Z) :=
  fun s =>
    Some (getOrderStatus (storage s) order signature,
          mkMachine (storage s) (trace s ++ [QueryOrderStatus order signature])).

Definition callSettleMatchedOrders (left right : Order)
    (amounts : MatchedOrderFillAmounts) (takerAddress : Z) : M unit :=
  let* _ := mutate (settleMatchedOrders left right amounts takerAddress) in
  record (SettleMatchedOrders left right amounts takerAddress).

Definition callUpdateFilledState (order : Order) (orderHash : Z)
    (mk tk mf tf : Z) : M unit :=
  let* _ := mutate (updateFilledState order orderHash mk tk mf tf) in
  record (UpdateFilledState order orderHash mk tk mf tf).

(** ** matchOrders

    Lines 147-210.  The call on line 188 passes four arguments to the
    five-parameter [getMatchedFillAmounts]; the missing
    [takerTokenFillAmount] is left open as an argument of the embedding
    and every statement below holds for each value of it.  [return 0;]
    is read as returning zero for both results. *)
Definition matchOrders (left right : Order)
    (leftSignature rightSignature : bytes) (takerTokenFillAmount : Z)
  : M (Z * Z) :=
  (* Get left status *)
  let* (leftOrderHash, status, leftFilledAmount) :=
    callGetOrderStatus left leftSignature in
  if negb (status =? ORDER_FILLABLE) then
    let* _ := record (EmitExchangeStatus status leftOrderHash) in
    ret (0, 0)
  else
  (* Get right status *)
  let rightOrderHash := 0 in
  let* (leftOrderHash, status, rightFilledAmount) :=
    callGetOrderStatus left leftSignature in
  if negb (status =? ORDER_FILLABLE) then
    let* _ := record (EmitExchangeStatus status leftOrderHash) in
    ret (0, 0)
  else
  (* Fetch taker address *)
  let* takerAddress := (fun s => Some (getCurrentContextAddress (storage s), s)) in
  (* Either our context is valid or we revert *)
  let* _ := require (validateMatchOrdersContextOrRevert left right) in
  (* Compute proportional fill amounts *)
  let* (status, matchedFillOrderAmounts) :=
    liftOption (getMatchedFillAmounts left right leftFilledAmount
                  rightFilledAmount takerTokenFillAmount) in
  (* Settle matched orders *)
  let* _ := callSettleMatchedOrders left right matchedFillOrderAmounts
              takerAddress in
  (* Update exchange internal state *)
  let* _ := callUpdateFilledState left leftOrderHash
              (leftMakerTokenFilledAmount matchedFillOrderAmounts)
              (leftTakerTokenFilledAmount matchedFillOrderAmounts)
              (leftMakerFeeAmountPaid matchedFillOrderAmounts)
              (leftTakerFeeAmountPaid matchedFillOrderAmounts) in
  let* _ := callUpdateFilledState right rightOrderHash
              (rightMakerTokenFilledAmount matchedFillOrderAmounts)
              (rightTakerTokenFilledAmount matchedFillOrderAmounts)
              (rightMakerFeeAmountPaid matchedFillOrderAmounts)
              (rightTakerFeeAmountPaid matchedFillOrderAmounts) in
  ret (leftFilledAmount, rightFilledAmount).

(** A transaction from a storage [st0], with an empty trace. *)
Definition run {A} (c : M A) (st0 : Storage) : option (A * Machine) :=
  c (mkMachine st0 []).

(** The Matched outcome: the settlement and both ledger updates are in
    the trace. *)
Definition matched (tr : list Call) : bool :=
  existsb isSettle tr && (2 <=? Z.of_nat (length (filter isLedgerUpdate tr))).

(** Nothing was settled and no ledger entry was written. *)
Definition untouched (tr : list Call) : bool :=
  negb (existsb isSettle tr) && negb (existsb isLedgerUpdate tr).

End Mixin.

End Exchange.

(* ===================================================================== *)
(** * The match as the spec words it *)
(* ===================================================================== *)

Module MatchSpec.

Import Exchange.

(** The left-constrained case in the words of the spec (4.3, steps 3 and
    6): fill left with [leftRemaining] as the taker-fill request; derive
    right's fill as [right.makerAmount * leftMakerFilled /
    right.takerAmount], truncated toward zero ([Z.quot]), an overflowing
    product or a zero denominator being fatal; fill right with the
    derived amount; check that right's maker amount covers left's taker
    amount.  Written to be compared with
    [Exchange.fillLeftConstrained]. *)
Definition leftConstrained (SUCCESS : Z)
    (getFillAmounts : Order -> Z -> Z -> Z -> option FillAmounts)
    (sender : Z) (left right : Order)
    (leftRemaining takerTokenFillAmount : Z)
  : option (Z * MatchedOrderFillAmounts) :=
  match getFillAmounts left leftRemaining takerTokenFillAmount sender with
  | None => None
  | Some (s1, lmk, ltk, lmf, ltf) =>
    if s1 =? SUCCESS then
      if (Word.modulus <=? makerTokenAmount right * lmk)
         || (takerTokenAmount right =? 0)
      then None
      else
        let derived :=
          Z.quot (makerTokenAmount right * lmk) (takerTokenAmount right) in
        match getFillAmounts right derived takerTokenFillAmount sender with
        | None => None
        | Some (s2, rmk, rtk, rmf, rtf) =>
          let m := mkAmounts lmk ltk lmf ltf rmk rtk rmf rtf in
          if s2 =? SUCCESS
          then if ltk <=? rmk then Some (s2, m) else None
          else Some (s2, m)
        end
    else Some (s1, mkAmounts lmk ltk lmf ltf 0 0 0 0)
  end.

(** The two amounts the post-condition of the spec (4.3, step 6) compares,
    by role: the maker-asset amount released by the side that is not the
    binding constraint, and the taker-asset amount consumed by the side that
    is. *)
Definition releasedByNonConstrained (leftConstrained : bool)
    (m : MatchedOrderFillAmounts) : Z :=
  if leftConstrained
  then rightMakerTokenFilledAmount m
  else leftMakerTokenFilledAmount m.

Definition consumedByConstrained (leftConstrained : bool)
    (m : MatchedOrderFillAmounts) : Z :=
  if leftConstrained
  then leftTakerTokenFilledAmount m
  else rightTakerTokenFilledAmount m.

End MatchSpec.

(* ===================================================================== *)
(** * A reference instance of the collaborators *)
(* ===================================================================== *)

Module Reference.

Import Exchange.

(** Modelled from the spec: LibStatus.sol is not among the sources.  The
    members are the statuses of the resolver (4.2) and of the calculator
    (4.3); the numbering is this development's. *)
Definition SUCCESS : Z := 1.
Definition TAKER_TOKEN_FILL_AMOUNT_TOO_LOW : Z := 2.
Definition ORDER_INVALID : Z := 3.
Definition ORDER_EXPIRED : Z := 4.
Definition ORDER_CANCELLED : Z := 5.
Definition ORDER_FULLY_FILLED : Z := 6.
Definition ORDER_FILLABLE : Z := 7.

(** The filled-state ledger (order hash to cumulative taker amount), the
    cancellation registry, the clock and the caller. *)
Record Storage := mkStorage {
  filled : gmap Z Z;
  cancelled : gset Z;
  currentTime : Z;
  currentContextAddress : Z
}.

Definition getFilled (st : Storage) (orderHash : Z) : Z :=
  default 0 (filled st !! orderHash).

(** Modelled from the spec: the order hash is a deterministic function of
    all the fields (4.1).  The Keccak hash of the contract is replaced by
    a polynomial digest that is never zero. *)
Definition getOrderHash (o : Order) : Z :=
  1 + fold_left (fun acc x => (acc * 1000003 + x) mod (Word.modulus - 1))
        [makerAddress o; makerTokenAddress o; takerTokenAddress o;
         makerTokenAmount o; takerTokenAmount o; makerFeeAmount o;
         takerFeeAmount o; feeRecipientAddress o; salt o;
         expirationTimeSeconds o] 7.

(** Modelled from the spec: a signature authorises an order iff it
    recovers to the stated maker (4.1).  Curve recovery is replaced by
    reading the signer's address off the signature bytes, big endian. *)
Definition recoverSigner (orderHash : Z) (signature : bytes) : Z :=
  fold_left (fun acc b => acc * 256 + Z.of_N (Byte.to_N b)) signature 0.

(** Modelled from the spec: the status resolver, policy 1-5 of 4.2. *)
Definition getOrderStatus (st : Storage) (o : Order) (signature : bytes)
  : Z * Z * Z :=
  let orderHash := getOrderHash o in
  let filledAmount := getFilled st orderHash in
  let status :=
    if negb (recoverSigner orderHash signature =? makerAddress o)
       || (makerTokenAmount o =? 0) || (takerTokenAmount o =? 0)
    then ORDER_INVALID
    else if expirationTimeSeconds o <=? currentTime st then ORDER_EXPIRED
    else if bool_decide (orderHash ∈ cancelled st) then ORDER_CANCELLED
    else if takerTokenAmount o <=? filledAmount then ORDER_FULLY_FILLED
    else ORDER_FILLABLE in
  (orderHash, status, filledAmount).

(** Modelled from the spec: one side's fill (4.3).  The taker amount is
    the request capped by the remaining capacity; a non-positive fill is
    reported; maker amount and fees are proportional to the taker amount
    filled, truncated. *)
Definition getFillAmounts (o : Order)
    (remaining takerTokenFillAmount sender : Z) : option FillAmounts :=
  let takerFilled := Z.min takerTokenFillAmount remaining in
  if takerFilled <=? 0
  then Some (TAKER_TOKEN_FILL_AMOUNT_TOO_LOW, 0, 0, 0, 0)
  else
    match LibPartialAmount.getPartialAmount
            (makerTokenAmount o) (takerTokenAmount o) takerFilled,
          LibPartialAmount.getPartialAmount
            (makerFeeAmount o) (takerTokenAmount o) takerFilled,
          LibPartialAmount.getPartialAmount
            (takerFeeAmount o) (takerTokenAmount o) takerFilled with
    | Some makerFilled, Some makerFeePaid, Some takerFeePaid =>
      Some (SUCCESS, makerFilled, takerFilled, makerFeePaid, takerFeePaid)
    | _, _, _ => None
    end.

(** Modelled from the spec: the settlement executor is an external
    collaborator (6); here it accepts every transfer and keeps no
    balances. *)
Definition settleMatchedOrders (left right : Order)
    (m : MatchedOrderFillAmounts) (takerAddress : Z) (st : Storage)
  : option Storage := Some st.

(** Modelled from the spec: [recordFill] of 4.4, an increment guarded
    against over-fill. *)
Definition updateFilledState (o : Order) (orderHash : Z)
    (makerFilled takerFilled makerFeePaid takerFeePaid : Z) (st : Storage)
  : option Storage :=
  let total := getFilled st orderHash + takerFilled in
  if total <=? takerTokenAmount o
  then Some (mkStorage (<[orderHash := total]> (filled st)) (cancelled st)
               (currentTime st) (currentContextAddress st))
  else None.

Definition getMatchedFillAmounts :=
  Exchange.getMatchedFillAmounts SUCCESS getFillAmounts.

Definition matchOrders (sender : Z) :=
  Exchange.matchOrders Storage SUCCESS ORDER_FILLABLE getOrderStatus
    getFillAmounts currentContextAddress settleMatchedOrders
    updateFilledState sender.

(** ** Sample orders *)

(** The signature bytes that recover to the address [a] (one byte). *)
Definition sigOf (a : Z) : bytes :=
  match Byte.of_N (Z.to_N a) with Some b => [b] | None => [] end.

Definition freshStorage : Storage := mkStorage ∅ ∅ 1000 9.

(** Order A of the spec's scenario: 100 X for 200 Y.  X sits at address
    100 and Y at address 200. *)
Definition orderA : Order := mkOrder 11 100 200 100 200 0 0 0 1 2000.

(** Order B of the spec's scenario: 200 Y for 100 X. *)
Definition orderB : Order := mkOrder 12 200 100 200 100 0 0 0 2 2000.

(** Order B, expired at time 500. *)
Definition orderBexpired : Order := mkOrder 12 200 100 200 100 0 0 0 2 500.

(** An order with B's amounts over two other assets, at 777 and 888. *)
Definition orderOther : Order := mkOrder 12 777 888 200 100 0 0 0 2 2000.

End Reference.

(* ===================================================================== *)
(** * Signing an order hash (ZeroEx.signOrderHashAsync) *)
(* ===================================================================== *)

Module ZeroEx.

Record ECSignature := mkECSignature {
  v : Z;
  r : string;
  s : string
}.

(** What a call can throw: a failed [assert.*] on the named variable, a
    rejection by the signer behind the provider, an error raised by a
    signature parser, or [ZeroExError.InvalidSignature]. *)
Inductive Error :=
| AssertionFailed (variableName : string)
| SignerRejected (message : string)
| ParserFailed (message : string)
| InvalidSignature.

(** What a signature parser does with the signer's answer: it returns the
    three parameters, or it throws (the R-S-V parser does on an answer of
    the wrong length). *)
Inductive Parsed :=
| ParsedSignature (signature : ECSignature)
| ParserError (message : string).

Inductive Result (A : Type) :=
| Ok (a : A)
| Throw (e : Error).
Arguments Ok {A} a.
Arguments Throw {A} e.

(** [_.includes] on an array of numbers. *)
Definition includes (xs : list Z) (x : Z) : bool :=
  existsb (Z.eqb x) xs.

Definition validVParamValues : list Z := [27; 28].

Section Sign.

(** The [assert] helpers, [signatureUtils], [ethereumjs-util] and the
    web3 wrapper are imported by the class and are not among the
    sources.  The assertions are predicates that throw when false; the
    parsers return a signature or throw; the recovery check is the
    function its TypeScript signature declares. *)
Variable isHexString : string -> bool.
Variable isETHAddressHex : string -> bool.
Variable isSenderAddress : string -> bool.
Variable doesConformToEcSignatureSchema : ECSignature -> bool.
Variable signatureUtils_isValidSignature :
  string -> ECSignature -> string -> bool.
Variable parseSignatureHexAsVRS : string -> Parsed.
Variable parseSignatureHexAsRSV : string -> Parsed.
Variable hashPersonalMessageHex : string -> string.
Variable signTransactionAsync : string -> string -> Result string.

(** Lines 75-82. *)
Definition isValidSignature (data : string) (signature : ECSignature)
    (signerAddress : string) : Result bool :=
  if negb (isHexString data) then Throw (AssertionFailed "data")
  else if negb (doesConformToEcSignatureSchema signature)
  then Throw (AssertionFailed "signature")
  else if negb (isETHAddressHex signerAddress)
  then Throw (AssertionFailed "signerAddress")
  else Ok (signatureUtils_isValidSignature data signature signerAddress).

(** One of the two attempts of lines 268-282: [Ok true] is the early
    return of the candidate, [Ok false] falls through. *)
Definition tryCandidate (orderHash signerAddress : string)
    (candidate : ECSignature) : Result bool :=
  if includes validVParamValues (v candidate)
  then isValidSignature orderHash candidate signerAddress
  else Ok false.

(** Lines 246-285.  Nothing catches what a parser throws: it leaves the
    function as it is.  The R-S-V parser is called only after the V-R-S
    attempt fell through. *)
Definition signOrderHashAsync (orderHash signerAddress : string)
    (shouldAddPersonalMessagePrefix : bool) : Result ECSignature :=
  if negb (isHexString orderHash) then Throw (AssertionFailed "orderHash")
  else if negb (isSenderAddress signerAddress)
  then Throw (AssertionFailed "signerAddress")
  else
    let msgHashHex :=
      if shouldAddPersonalMessagePrefix
      then hashPersonalMessageHex orderHash
      else orderHash in
    match signTransactionAsync signerAddress msgHashHex with
    | Throw e => Throw e
    | Ok signature =>
      match parseSignatureHexAsVRS signature with
      | ParserError message => Throw (ParserFailed message)
      | ParsedSignature ecSignatureVRS =>
        match tryCandidate orderHash signerAddress ecSignatureVRS with
        | Throw e => Throw e
        | Ok true => Ok ecSignatureVRS
        | Ok false =>
          match parseSignatureHexAsRSV signature with
          | ParserError message => Throw (ParserFailed message)
          | ParsedSignature ecSignatureRSV =>
            match tryCandidate orderHash signerAddress ecSignatureRSV with
            | Throw e => Throw e
            | Ok true => Ok ecSignatureRSV
            | Ok false => Throw InvalidSignature
            end
          end
        end
      end
    end.

(** The message the signer is asked to sign. *)
Definition messageToSign (orderHash : string)
    (shouldAddPersonalMessagePrefix : bool) : string :=
  if shouldAddPersonalMessagePrefix
  then hashPersonalMessageHex orderHash
  else orderHash.

(** A parsing of the raw signature is valid for (orderHash,
    signerAddress): its [v] is 27 or 28 and it passes
    [isValidSignature]. *)
Definition validParsing (orderHash signerAddress : string)
    (candidate : ECSignature) : Prop :=
  In (v candidate) validVParamValues
  /\ isValidSignature orderHash candidate signerAddress = Ok true.

(** A parsing is rejected: its [v] is neither 27 nor 28, or
    [isValidSignature] answers false. *)
Definition rejectedParsing (orderHash signerAddress : string)
    (candidate : ECSignature) : Prop :=
  ~ In (v candidate) validVParamValues
  \/ isValidSignature orderHash candidate signerAddress = Ok false.

End Sign.

(** ** A sample signer

    A toy provider for concrete runs: signatures are three characters
    long, a [v] tag and one character each for [r] and [s]; the sample
    signer answers in R-S-V order.  The V-R-S parser reads what it finds;
    the R-S-V parser throws on an answer that is not three characters
    long. *)
Module Sample.

Definition vOfTag (c : Ascii.ascii) : Z :=
  if Ascii.eqb c "a"%char then 27
  else if Ascii.eqb c "b"%char then 28
  else 0.

Definition parseVRS (raw : string) : Parsed :=
  match raw with
  | String c0 (String c1 (String c2 _)) =>
    ParsedSignature
      (mkECSignature (vOfTag c0) (String c1 EmptyString) (String c2 EmptyString))
  | _ => ParsedSignature (mkECSignature 0 "" "")
  end.

Definition parseRSV (raw : string) : Parsed :=
  match raw with
  | String c0 (String c1 (String c2 EmptyString)) =>
    ParsedSignature
      (mkECSignature (vOfTag c2) (String c0 EmptyString) (String c1 EmptyString))
  | _ => ParserError "Invalid signature length"
  end.

(** The signature the toy scheme accepts for any data and signer. *)
Definition genuine : ECSignature := mkECSignature 28 "x" "y".

Definition recovers (data : string) (sig : ECSignature) (signer : string)
  : bool :=
  (v sig =? 28) && String.eqb (r sig) "x" && String.eqb (s sig) "y".

Definition always (x : string) : bool := true.
Definition conforms (sig : ECSignature) : bool := true.
Definition prefixed (h : string) : string := String.append "p" h.

(** Answers "xyb": r = x, s = y, v = 28 in R-S-V order. *)
Definition honestSigner (signer msg : string) : Result string := Ok "xyb"%string.

(** Answers a signature that neither parsing accepts. *)
Definition brokenSigner (signer msg : string) : Result string := Ok "zzz"%string.

Definition sign (signer : string -> string -> Result string) :=
  signOrderHashAsync always always always conforms recovers
    parseVRS parseRSV prefixed signer.

(** A schema check that refuses the parameter "?", which stands for an
    [r] or [s] of the wrong shape. *)
Definition wellShaped (sig : ECSignature) : bool :=
  negb (String.eqb (r sig) "?") && negb (String.eqb (s sig) "?").

Definition signStrictly (signer : string -> string -> Result string) :=
  signOrderHashAsync always always always wellShaped recovers
    parseVRS parseRSV prefixed signer.

(** Answers "a??": under V-R-S, v = 27 with misshapen r and s. *)
Definition misshapenSigner (signer msg : string) : Result string :=
  Ok "a??"%string.

(** Answers two characters only. *)
Definition shortSigner (signer msg : string) : Result string := Ok "zz"%string.

(** No parsing of [raw] that a parser returns is valid for (orderHash,
    signerAddress). *)
Definition noValidParsing (conforms : ECSignature -> bool)
    (orderHash signerAddress raw : string) : Prop :=
  forall candidate,
    parseVRS raw = ParsedSignature candidate
    \/ parseRSV raw = ParsedSignature candidate ->
    ~ validParsing always always conforms recovers
        orderHash signerAddress candidate.

End Sample.

End ZeroEx.

(* ===================================================================== *)
(** * Sample orders at the edge of the word size *)
(* ===================================================================== *)

Module Samples.

Import Exchange Reference.

(** A left order asking 2^255 of the asset at address 1 for one unit of
    the asset at address 2, and its counterpart giving 1 for 2. *)
Definition wideLeft : Order := mkOrder 11 2 1 1 (2 ^ 255) 0 0 0 1 2000.
Definition wideRight : Order := mkOrder 12 1 2 1 2 0 0 0 2 2000.

(** A right order giving 2^255 for 2, against a left order asking 1. *)
Definition hugeMakerRight : Order := mkOrder 12 1 2 (2 ^ 255) 2 0 0 0 2 2000.
Definition unitLeft : Order := mkOrder 11 2 1 1 1 0 0 0 1 2000.

(** A left order giving 1 for 2, half filled, and its counterpart giving
    2 for 1. *)
Definition halfLeft : Order := mkOrder 11 1 2 1 2 0 0 0 1 2000.
Definition halfRight : Order := mkOrder 12 2 1 2 1 0 0 0 2 2000.
Definition halfFilledStorage : Storage :=
  mkStorage {[ getOrderHash halfLeft := 1 ]} ∅ 1000 9.

(** A left order giving 200 for 100, untouched, against a right order
    trading 100 for 100 of which 50 are filled. *)
Definition spreadLeft : Order := mkOrder 11 100 200 200 100 0 0 0 1 2000.
Definition evenRight : Order := mkOrder 12 200 100 100 100 0 0 0 2 2000.

(** A left order giving 3000 X for 5000 Y with 1667 filled, and a right
    order giving 5000 Y for 3000 X with 1000 filled: inverse pairs, zero
    spread. *)
Definition partLeft : Order := mkOrder 11 100 200 3000 5000 0 0 0 1 2000.
Definition partRight : Order := mkOrder 12 200 100 5000 3000 0 0 0 2 2000.
Definition partStorage : Storage :=
  mkStorage (<[ getOrderHash partRight := 1000 ]>
               {[ getOrderHash partLeft := 1667 ]}) ∅ 1000 9.

End Samples.

(* ===================================================================== *)
(** * Decimal arithmetic (bignumber.js) and the unit helpers of ZeroEx *)
(* ===================================================================== *)

Module BigNumber.

(** A BigNumber holds a finite decimal; its value is kept as a rational.
    [times] and [pow] to a natural exponent are exact; [div] rounds to
    DECIMAL_PLACES places and [round] to a whole number, both with the
    library's default rounding mode ROUND_HALF_UP (halves away from
    zero). *)
Definition roundHalfUp (q : Q) : Z :=
  if Qle_bool 0 q then Qfloor (q + (1 # 2)) else (- Qfloor (- q + (1 # 2)))%Z.

Definition times (x y : Q) : Q := (x * y)%Q.

Definition pow (x : Q) (n : nat) : Q := (x ^ Z.of_nat n)%Q.

Definition round (x : Q) : Q := inject_Z (roundHalfUp x).

Definition roundTo (places : nat) (x : Q) : Q :=
  (inject_Z (roundHalfUp (x * pow (inject_Z 10) places))
   / pow (inject_Z 10) places)%Q.

Definition div (DECIMAL_PLACES : nat) (x y : Q) : Q :=
  roundTo DECIMAL_PLACES (x / y)%Q.

(** [x.decimalPlaces() !== 0]: the value is not a whole number. *)
Definition hasDecimals (x : Q) : bool :=
  negb (Qeq_bool x (inject_Z (Qfloor x))).

(** [BigNumber.random(dp)]: a value in [0, 1) with [dp] decimal places,
    that is [draw / 10^dp] for the digits [draw] the generator produced. *)
Definition random (dp : nat) (draw : Z) : Q :=
  (inject_Z draw / pow (inject_Z 10) dp)%Q.

End BigNumber.

Module Units.

Inductive Error :=
| AssertionFailed (variableName : string)
| TooManyDecimalPlaces (amount : Q).

Inductive Result (A : Type) :=
| Ok (a : A)
| Throw (e : Error).
Arguments Ok {A} a.
Arguments Throw {A} e.

Section Helpers.

(** The BigNumber configuration and [assert.isValidBaseUnitAmount] are
    imported by the class and are not among the sources.  [decimals] is the
    number of decimal places of a token, a natural number; the [isBigNumber]
    and [isNumber] assertions hold by typing. *)
Variable DECIMAL_PLACES : nat.
Variable isValidBaseUnitAmount : Q -> bool.

(** Lines 89-96, on the digits drawn by the generator.
    [MAX_DIGITS_IN_UNSIGNED_256_INT] comes from the constants module. *)
Definition generatePseudoRandomSalt (MAX_DIGITS_IN_UNSIGNED_256_INT : nat)
    (draw : Z) : Q :=
  let randomNumber := BigNumber.random MAX_DIGITS_IN_UNSIGNED_256_INT draw in
  let factor :=
    BigNumber.pow (inject_Z 10) (MAX_DIGITS_IN_UNSIGNED_256_INT - 1) in
  let salt := BigNumber.round (BigNumber.times randomNumber factor) in
  salt.

(** Lines 120-127. *)
Definition toUnitAmount (amount : Q) (decimals : nat) : Result Q :=
  if negb (isValidBaseUnitAmount amount) then Throw (AssertionFailed "amount")
  else
    let aUnit := BigNumber.pow (inject_Z 10) decimals in
    let unit := BigNumber.div DECIMAL_PLACES amount aUnit in
    Ok unit.

(** Lines 136-147. *)
Definition toBaseUnitAmount (amount : Q) (decimals : nat) : Result Q :=
  let unit := BigNumber.pow (inject_Z 10) decimals in
  let baseUnitAmount := BigNumber.times amount unit in
  let hasDecimals := BigNumber.hasDecimals baseUnitAmount in
  if hasDecimals then Throw (TooManyDecimalPlaces amount)
  else Ok baseUnitAmount.

End Helpers.

(** [assert.isValidBaseUnitAmount] as a check for a whole, non-negative
    number, for concrete runs. *)
Definition wholeAndNonNegative (x : Q) : bool :=
  Qle_bool 0 x && negb (BigNumber.hasDecimals x).

End Units.

(* ===================================================================== *)
(** * Further sample orders *)
(* ===================================================================== *)

Module MoreSamples.

Import Exchange Reference.

(** The counterpart of order A over the inverse asset pair (Y at 200 for
    X at 100) with amounts 400 and 200: the amounts differ from the
    addresses. *)
Definition orderBdouble : Order := mkOrder 12 200 100 400 200 0 0 0 2 2000.

(** A resolver that reports every order but A as cancelled, and A as the
    reference resolver does. *)
Definition onlyA (st : Storage) (o : Order) (signature : bytes) : Z * Z * Z :=
  if (salt o =? salt orderA) && (makerAddress o =? makerAddress orderA)
  then Reference.getOrderStatus st o signature
  else (getOrderHash o, ORDER_CANCELLED, 0).

(** A signer of the toy scheme that answers in V-R-S order: v = 28,
    r = x, s = y. *)
Definition vrsSigner (signer msg : string) : ZeroEx.Result string :=
  ZeroEx.Ok "bxy"%string.

End MoreSamples.

(* ===================================================================== *)
(** * Arithmetic of the guards *)
(* ===================================================================== *)

Lemma modulus_pos : 0 < Word.modulus.
Proof. reflexivity. Qed.

Lemma mul_no_overflow (a b : Z) :
  0 <= a * b < Word.modulus -> Word.mul a b = a * b.
Proof. intros H. unfold Word.mul. now apply Z.mod_small. Qed.

Lemma safeSub_Some (a b c : Z) :
  SafeMath.safeSub a b = Some c <-> b <= a /\ c = a - b.
Proof.
  unfold SafeMath.safeSub. destruct (Z.leb_spec b a); split.
  - intros [= <-]. lia.
  - intros [_ ->]. reflexivity.
  - discriminate.
  - lia.
Qed.

(** X7. Without overflow the test of line 56 is the comparison of the two
    products. *)
Lemma leftIsConstraint_exact (right : Exchange.Order) (lr rr : Z) :
  0 <= Exchange.makerTokenAmount right * rr < Word.modulus ->
  0 <= Exchange.takerTokenAmount right * lr < Word.modulus ->
  Exchange.leftIsConstraint right lr rr = true
  <-> Exchange.makerTokenAmount right * rr < Exchange.takerTokenAmount right * lr.
Proof.
  intros Ha Hb. unfold Exchange.leftIsConstraint.
  rewrite !mul_no_overflow by assumption. apply Z.ltb_lt.
Qed.

(** The partial amount is the truncated quotient whenever it is defined on
    unsigned operands, and it is defined exactly when the product fits and
    the denominator is not zero. *)
Lemma getPartialAmount_quot (n d t : Z) :
  0 <= n -> 0 <= d -> 0 <= t ->
  LibPartialAmount.getPartialAmount n d t =
    if (Word.modulus <=? n * t) || (d =? 0) then None
    else Some (Z.quot (n * t) d).
Proof.
  intros Hn Hd Ht.
  unfold LibPartialAmount.getPartialAmount, SafeMath.safeMul, SafeMath.safeDiv,
    Word.mul_overflows.
  destruct (Word.modulus <=? n * t); [reflexivity|]. cbn [orb].
  destruct (Z.eqb_spec d 0) as [->|Hne]; [reflexivity|].
  f_equal. symmetry. apply Z.quot_div_nonneg; nia.
Qed.

(* ===================================================================== *)
(** * The fill amount calculator *)
(* ===================================================================== *)

Section Calculator.

Import Exchange.

Variable SUCCESS : Z.
Variable getFillAmounts : Order -> Z -> Z -> Z -> option FillAmounts.
Variable msg_sender : Z.

Local Abbreviation fillLeft := (fillLeftConstrained SUCCESS getFillAmounts msg_sender).
Local Abbreviation fillRight := (fillRightConstrained SUCCESS getFillAmounts msg_sender).
Local Abbreviation matchedFill := (getMatchedFillAmounts SUCCESS getFillAmounts msg_sender).

(** Case analysis on one status test, keeping the equation. *)
Ltac status_test :=
  match goal with
  | |- context [?s =? SUCCESS] =>
    let E := fresh "E" in destruct (Z.eqb_spec s SUCCESS) as [E|E]; cbn [negb]
  end.

(** A successful left-constrained result went through both fills and the
    check of line 100. *)
Lemma fillLeft_success (left right : Order) (lr fill : Z)
    (m : MatchedOrderFillAmounts) :
  fillLeft left right lr fill = Some (SUCCESS, m) ->
  exists rightFill,
    getFillAmounts left lr fill msg_sender =
      Some (SUCCESS, leftMakerTokenFilledAmount m, leftTakerTokenFilledAmount m,
            leftMakerFeeAmountPaid m, leftTakerFeeAmountPaid m)
    /\ LibPartialAmount.getPartialAmount (makerTokenAmount right)
         (takerTokenAmount right) (leftMakerTokenFilledAmount m) = Some rightFill
    /\ getFillAmounts right rightFill fill msg_sender =
         Some (SUCCESS, rightMakerTokenFilledAmount m, rightTakerTokenFilledAmount m,
               rightMakerFeeAmountPaid m, rightTakerFeeAmountPaid m)
    /\ leftTakerTokenFilledAmount m <= rightMakerTokenFilledAmount m.
Proof.
  unfold fillLeftConstrained.
  destruct (getFillAmounts left lr fill msg_sender)
    as [[[[[s1 lmk] ltk] lmf] ltf]|] eqn:E1; [|discriminate].
  status_test; [|intros [= ? ?]; congruence].
  cbn [setLeft zeroAmounts leftMakerTokenFilledAmount].
  destruct (LibPartialAmount.getPartialAmount _ _ lmk) as [rightFill|] eqn:E2;
    [|discriminate].
  destruct (getFillAmounts right rightFill fill msg_sender)
    as [[[[[s2 rmk] rtk] rmf] rtf]|] eqn:E3; [|discriminate].
  status_test; [|intros [= ? ?]; congruence].
  cbn. destruct (Z.geb_spec rmk ltk); [|discriminate].
  intros [= <-]. cbn. exists rightFill. subst. repeat split; try assumption; lia.
Qed.

(** Every right-constrained result: right was filled with its remaining
    capacity as the request; when that succeeded, left was filled with
    right's maker amount as the request, after the check of line 121; a
    final SUCCESS passed the check of line 139. *)
Lemma fillRight_result (left right : Order) (lr rr fill status : Z)
    (m : MatchedOrderFillAmounts) :
  fillRight left right lr rr fill = Some (status, m) ->
  exists s1,
    getFillAmounts right rr fill msg_sender =
      Some (s1, rightMakerTokenFilledAmount m, rightTakerTokenFilledAmount m,
            rightMakerFeeAmountPaid m, rightTakerFeeAmountPaid m)
    /\ (s1 <> SUCCESS -> status = s1)
    /\ (s1 = SUCCESS ->
          rightMakerTokenFilledAmount m <= lr
          /\ getFillAmounts left (rightMakerTokenFilledAmount m) fill msg_sender =
               Some (status, leftMakerTokenFilledAmount m,
                     leftTakerTokenFilledAmount m,
                     leftMakerFeeAmountPaid m, leftTakerFeeAmountPaid m)
          /\ (status = SUCCESS ->
                rightMakerTokenFilledAmount m = leftTakerTokenFilledAmount m)).
Proof.
  unfold fillRightConstrained.
  destruct (getFillAmounts right rr fill msg_sender)
    as [[[[[s1 rmk] rtk] rmf] rtf]|] eqn:E1; [|discriminate].
  exists s1. revert H. status_test.
  - cbn [setRight zeroAmounts rightMakerTokenFilledAmount].
    destruct (Z.leb_spec rmk lr); cbn [negb]; [|discriminate].
    destruct (getFillAmounts left rmk fill msg_sender)
      as [[[[[s2 lmk] ltk] lmf] ltf]|] eqn:E3; [|discriminate].
    status_test.
    + cbn. destruct (Z.eqb_spec rmk ltk); [|discriminate].
      intros [= <- <-]. cbn. subst. repeat split; try assumption; congruence.
    + intros [= <- <-]. cbn. subst. repeat split; try assumption; congruence.
  - intros [= <- <-]. cbn. repeat split; try congruence.
Qed.

(** A successful right-constrained result went through both fills and the
    checks of lines 121 and 139. *)
Lemma fillRight_success (left right : Order) (lr rr fill : Z)
    (m : MatchedOrderFillAmounts) :
  fillRight left right lr rr fill = Some (SUCCESS, m) ->
  getFillAmounts right rr fill msg_sender =
    Some (SUCCESS, rightMakerTokenFilledAmount m, rightTakerTokenFilledAmount m,
          rightMakerFeeAmountPaid m, rightTakerFeeAmountPaid m)
  /\ rightMakerTokenFilledAmount m <= lr
  /\ getFillAmounts left (rightMakerTokenFilledAmount m) fill msg_sender =
       Some (SUCCESS, leftMakerTokenFilledAmount m, leftTakerTokenFilledAmount m,
             leftMakerFeeAmountPaid m, leftTakerFeeAmountPaid m)
  /\ rightMakerTokenFilledAmount m = leftTakerTokenFilledAmount m.
Proof.
  intros H. apply fillRight_result in H as (s1 & H1 & Hn & Hs).
  destruct (Z.eq_dec s1 SUCCESS) as [->|Hne].
  - destruct (Hs eq_refl) as (Hle & H2 & H3). auto.
  - specialize (Hn Hne). congruence.
Qed.

(** The branch taken, once both remaining capacities are known. *)
Lemma matchedFill_branch (left right : Order) (lf rf fill lr rr : Z) :
  SafeMath.safeSub (takerTokenAmount left) lf = Some lr ->
  SafeMath.safeSub (takerTokenAmount right) rf = Some rr ->
  matchedFill left right lf rf fill =
    if leftIsConstraint right lr rr
    then fillLeft left right lr fill
    else fillRight left right lr rr fill.
Proof.
  intros Hl Hr. unfold getMatchedFillAmounts. now rewrite Hl, Hr.
Qed.

(** A result of [getMatchedFillAmounts] had both remaining capacities
    defined. *)
Lemma matchedFill_remaining (left right : Order) (lf rf fill : Z) res :
  matchedFill left right lf rf fill = Some res ->
  exists lr rr,
    SafeMath.safeSub (takerTokenAmount left) lf = Some lr
    /\ SafeMath.safeSub (takerTokenAmount right) rf = Some rr.
Proof.
  unfold getMatchedFillAmounts.
  destruct (SafeMath.safeSub (takerTokenAmount left) lf) as [lr|]; [|discriminate].
  destruct (SafeMath.safeSub (takerTokenAmount right) rf) as [rr|]; [|discriminate].
  intros _. now exists lr, rr.
Qed.

(** C1. In every successful result of getMatchedFillAmounts: when the left
    order is the binding constraint, the maker-asset amount released by the
    non-constrained side (right) is at least the taker-asset amount consumed
    by the constrained side (left), by the check of line 100; when the right
    order is the constraint, right's maker amount equals left's taker amount,
    by the check of line 139.  Either way the residual, right's maker amount
    less left's taker amount, is never negative. *)
Theorem getMatchedFillAmounts_residual_nonneg
    (left right : Order) (lf rf fill lr rr : Z) (m : MatchedOrderFillAmounts) :
  SafeMath.safeSub (takerTokenAmount left) lf = Some lr ->
  SafeMath.safeSub (takerTokenAmount right) rf = Some rr ->
  matchedFill left right lf rf fill = Some (SUCCESS, m) ->
  (leftIsConstraint right lr rr = true ->
     MatchSpec.consumedByConstrained true m
     <= MatchSpec.releasedByNonConstrained true m)
  /\ (leftIsConstraint right lr rr = false ->
        rightMakerTokenFilledAmount m = leftTakerTokenFilledAmount m)
  /\ 0 <= residual m.
Proof.
  intros Hl Hr H.
  rewrite (matchedFill_branch _ _ _ _ _ _ _ Hl Hr) in H.
  unfold residual, MatchSpec.consumedByConstrained,
    MatchSpec.releasedByNonConstrained.
  destruct (leftIsConstraint right lr rr) eqn:Hc.
  - apply fillLeft_success in H as (rightFill & _ & _ & _ & Hle).
    repeat split; [intros _; exact Hle|discriminate|lia].
  - apply fillRight_success in H as (_ & _ & _ & Heq).
    repeat split; [discriminate|intros _; exact Heq|lia].
Qed.

(** C5. The selection of the binding constraint at a right order giving
    2^255 for 2 with remaining capacity 2, against a left order with
    remaining capacity 1: the product 2^255 * 2 is not below 2 * 1, yet
    its low 256 bits are zero, the test of line 56 holds and the left
    branch runs. *)
Theorem getMatchedFillAmounts_selects_left_on_wrapped_product (fill : Z) :
  SafeMath.safeSub (takerTokenAmount Samples.unitLeft) 0 = Some 1
  /\ SafeMath.safeSub (takerTokenAmount Samples.hugeMakerRight) 0 = Some 2
  /\ ~ (makerTokenAmount Samples.hugeMakerRight * 2
        < takerTokenAmount Samples.hugeMakerRight * 1)
  /\ leftIsConstraint Samples.hugeMakerRight 1 2 = true
  /\ matchedFill Samples.unitLeft Samples.hugeMakerRight 0 0 fill =
       fillLeft Samples.unitLeft Samples.hugeMakerRight 1 fill.
Proof.
  repeat split.
  - cbn. lia.
Qed.

(** C6. Whenever the left order is the binding constraint,
    getMatchedFillAmounts computes what the spec describes: left is filled
    with leftRemaining as the taker-fill request, right's fill is
    right.makerAmount * leftMakerTokenFilledAmount / right.takerAmount
    truncated toward zero (an overflowing product or a zero denominator
    aborting), and right is filled with that derived amount.  The order
    amounts and the amounts handed back by getFillAmounts are unsigned. *)
Theorem getMatchedFillAmounts_left_constrained
    (left right : Order) (lf rf fill lr rr : Z) :
  0 <= makerTokenAmount right ->
  0 <= takerTokenAmount right ->
  (forall s a b c d,
      getFillAmounts left lr fill msg_sender = Some (s, a, b, c, d) -> 0 <= a) ->
  SafeMath.safeSub (takerTokenAmount left) lf = Some lr ->
  SafeMath.safeSub (takerTokenAmount right) rf = Some rr ->
  leftIsConstraint right lr rr = true ->
  matchedFill left right lf rf fill =
    MatchSpec.leftConstrained SUCCESS getFillAmounts msg_sender
      left right lr fill.
Proof.
  intros HrM HrT Hpos Hl Hr Hc.
  rewrite (matchedFill_branch _ _ _ _ _ _ _ Hl Hr), Hc.
  unfold fillLeftConstrained, MatchSpec.leftConstrained.
  destruct (getFillAmounts left lr fill msg_sender)
    as [[[[[s1 lmk] ltk] lmf] ltf]|] eqn:E1; [|reflexivity].
  specialize (Hpos _ _ _ _ _ eq_refl).
  status_test; [|reflexivity].
  cbn [setLeft zeroAmounts leftMakerTokenFilledAmount].
  rewrite getPartialAmount_quot by assumption.
  destruct ((Word.modulus <=? makerTokenAmount right * lmk)
            || (takerTokenAmount right =? 0)); [reflexivity|].
  destruct (getFillAmounts right _ fill msg_sender)
    as [[[[[s2 rmk] rtk] rmf] rtf]|]; [|reflexivity].
  status_test; [|reflexivity].
  cbn. rewrite Z.geb_leb. reflexivity.
Qed.

(** C7. Whenever the right order is the binding constraint, every result of
    getMatchedFillAmounts carries for the right order the amounts of filling
    it with rightRemaining as the request; when that fill succeeded the left
    amounts are those of filling left with exactly right's maker amount as
    the request; and on success left's taker amount filled equals right's
    maker amount filled. *)
Theorem getMatchedFillAmounts_right_constrained
    (left right : Order) (lf rf fill lr rr status : Z)
    (m : MatchedOrderFillAmounts) :
  SafeMath.safeSub (takerTokenAmount left) lf = Some lr ->
  SafeMath.safeSub (takerTokenAmount right) rf = Some rr ->
  leftIsConstraint right lr rr = false ->
  matchedFill left right lf rf fill = Some (status, m) ->
  exists s1,
    getFillAmounts right rr fill msg_sender =
      Some (s1, rightMakerTokenFilledAmount m, rightTakerTokenFilledAmount m,
            rightMakerFeeAmountPaid m, rightTakerFeeAmountPaid m)
    /\ (s1 <> SUCCESS -> status = s1)
    /\ (s1 = SUCCESS ->
          getFillAmounts left (rightMakerTokenFilledAmount m) fill msg_sender =
            Some (status, leftMakerTokenFilledAmount m,
                  leftTakerTokenFilledAmount m,
                  leftMakerFeeAmountPaid m, leftTakerFeeAmountPaid m))
    /\ (status = SUCCESS ->
          s1 = SUCCESS
          /\ leftTakerTokenFilledAmount m = rightMakerTokenFilledAmount m).
Proof.
  intros Hl Hr Hc H.
  rewrite (matchedFill_branch _ _ _ _ _ _ _ Hl Hr), Hc in H.
  apply fillRight_result in H as (s1 & H1 & Hn & Hs).
  exists s1. split; [exact H1|]. split; [exact Hn|]. split.
  - intros E. now destruct (Hs E) as (_ & H2 & _).
  - intros E. destruct (Z.eq_dec s1 SUCCESS) as [E1|Hne].
    + split; [exact E1|]. destruct (Hs E1) as (_ & _ & H3).
      symmetry. now apply H3.
    + specialize (Hn Hne). congruence.
Qed.

End Calculator.

(* ===================================================================== *)
(** * The match orchestrator *)
(* ===================================================================== *)

Section Orchestrator.

Import Exchange.

Variable Storage : Type.
Variable SUCCESS : Z.
Variable ORDER_FILLABLE : Z.
Variable getOrderStatus : Storage -> Order -> bytes -> Z * Z * Z.
Variable getFillAmounts : Order -> Z -> Z -> Z -> option FillAmounts.
Variable getCurrentContextAddress : Storage -> Z.
Variable settleMatchedOrders :
  Order -> Order -> MatchedOrderFillAmounts -> Z -> Storage -> option Storage.
Variable updateFilledState :
  Order -> Z -> Z -> Z -> Z -> Z -> Storage -> option Storage.
Variable msg_sender : Z.

Local Abbreviation matchOrders :=
  (Exchange.matchOrders Storage SUCCESS ORDER_FILLABLE getOrderStatus
     getFillAmounts getCurrentContextAddress settleMatchedOrders
     updateFilledState msg_sender).
Local Abbreviation matchedFill :=
  (getMatchedFillAmounts SUCCESS getFillAmounts msg_sender).

(** Every transaction of [matchOrders], stage by stage. *)
Lemma matchOrders_run (st0 : Storage) (left right : Order)
    (leftSignature rightSignature : bytes) (fill : Z) :
  run Storage (matchOrders left right leftSignature rightSignature fill) st0 =
    let '(h, s, f) := getOrderStatus st0 left leftSignature in
    if negb (s =? ORDER_FILLABLE)
    then Some ((0, 0),
               mkMachine Storage st0
                 [QueryOrderStatus left leftSignature; EmitExchangeStatus s h])
    else if validateMatchOrdersContextOrRevert left right then
      match matchedFill left right f f fill with
      | None => None
      | Some (_, m) =>
        let taker := getCurrentContextAddress st0 in
        match settleMatchedOrders left right m taker st0 with
        | None => None
        | Some st1 =>
          match updateFilledState left h
                  (leftMakerTokenFilledAmount m) (leftTakerTokenFilledAmount m)
                  (leftMakerFeeAmountPaid m) (leftTakerFeeAmountPaid m) st1 with
          | None => None
          | Some st2 =>
            match updateFilledState right 0
                    (rightMakerTokenFilledAmount m) (rightTakerTokenFilledAmount m)
                    (rightMakerFeeAmountPaid m) (rightTakerFeeAmountPaid m) st2 with
            | None => None
            | Some st3 =>
              Some ((f, f),
                    mkMachine Storage st3
                      (matchedTrace left right leftSignature h taker m))
            end
          end
        end
      end
    else None.
Proof.
  unfold run, Exchange.matchOrders, bind, callGetOrderStatus. cbn.
  destruct (getOrderStatus st0 left leftSignature) as [[h s] f] eqn:Q.
  destruct (s =? ORDER_FILLABLE) eqn:Fillable; cbn; [|reflexivity].
  rewrite ?Q, ?Fillable; cbn.
  destruct (validateMatchOrdersContextOrRevert left right); cbn; [|reflexivity].
  destruct (matchedFill left right f f fill) as [[status m]|]; cbn; [|reflexivity].
  unfold callSettleMatchedOrders, callUpdateFilledState, bind, mutate, record. cbn.
  destruct (settleMatchedOrders left right m _ st0) as [st1|]; cbn; [|reflexivity].
  destruct (updateFilledState left h _ _ _ _ st1) as [st2|]; cbn; [|reflexivity].
  destruct (updateFilledState right 0 _ _ _ _ st2) as [st3|]; cbn; reflexivity.
Qed.

(** A transaction whose context check fails settles nothing and writes
    no ledger entry: it reverts, or it stopped earlier on a status. *)
Lemma matchOrders_invalid_context (st0 : Storage) (left right : Order)
    (leftSignature rightSignature : bytes) (fill : Z) res mach :
  validateMatchOrdersContextOrRevert left right = false ->
  run Storage (matchOrders left right leftSignature rightSignature fill) st0
    = Some (res, mach) ->
  untouched (trace Storage mach) = true /\ storage Storage mach = st0.
Proof.
  intros Hv. rewrite matchOrders_run.
  destruct (getOrderStatus st0 left leftSignature) as [[h s] f].
  destruct (negb (s =? ORDER_FILLABLE)).
  - intros [= <- <-]. split; reflexivity.
  - rewrite Hv. discriminate.
Qed.

(** C9. Every transaction of matchOrders that completes with a ledger
    update made both of its status queries on the left order with the left
    signature; the left entry is keyed by the hash that query reported, both
    returned filled amounts are the one it reported, and the right order's
    updateFilledState is keyed by the zero hash that rightOrderHash was
    initialised with. *)
Theorem matchOrders_right_ledger_key_is_zero (st0 : Storage)
    (left right : Order) (leftSignature rightSignature : bytes) (fill : Z)
    (res : Z * Z) (mach : Machine Storage) :
  run Storage (matchOrders left right leftSignature rightSignature fill) st0
    = Some (res, mach) ->
  existsb isLedgerUpdate (trace Storage mach) = true ->
  exists m,
    trace Storage mach =
      matchedTrace left right leftSignature
        (fst (fst (getOrderStatus st0 left leftSignature)))
        (getCurrentContextAddress st0) m
    /\ filter isStatusQuery (trace Storage mach) =
         [QueryOrderStatus left leftSignature;
          QueryOrderStatus left leftSignature]
    /\ res = (snd (getOrderStatus st0 left leftSignature),
              snd (getOrderStatus st0 left leftSignature))
    /\ nth_error (trace Storage mach) 4 =
         Some (UpdateFilledState right 0
                 (rightMakerTokenFilledAmount m) (rightTakerTokenFilledAmount m)
                 (rightMakerFeeAmountPaid m) (rightTakerFeeAmountPaid m)).
Proof.
  rewrite matchOrders_run.
  destruct (getOrderStatus st0 left leftSignature) as [[h s] f]. cbn [fst snd].
  destruct (negb (s =? ORDER_FILLABLE)).
  { intros [= <- <-]. cbn. discriminate. }
  destruct (validateMatchOrdersContextOrRevert left right); [|discriminate].
  destruct (matchedFill left right f f fill) as [[status m]|]; [|discriminate].
  cbn zeta.
  destruct (settleMatchedOrders left right m _ st0) as [st1|]; [|discriminate].
  destruct (updateFilledState left h _ _ _ _ st1) as [st2|]; [|discriminate].
  destruct (updateFilledState right 0 _ _ _ _ st2) as [st3|]; [|discriminate].
  intros [= <- <-] _. exists m. cbn. repeat split.
Qed.

End Orchestrator.

(* ===================================================================== *)
(** * Transactions of the reference instance *)
(* ===================================================================== *)

Section ReferenceRuns.

Import Exchange Reference Samples.

Local Abbreviation transact left right leftSignature rightSignature st0 :=
  (run Storage
     (Reference.matchOrders 9 left right leftSignature rightSignature
        Word.max_uint256) st0).

(** A successful right-constrained match of two fillable orders with
    inverse asset pairs and zero spread, where the non-constrained side
    (left) releases 1999 of its maker asset and the constrained side (right)
    consumes 2000 of it. *)
Lemma getMatchedFillAmounts_right_constrained_shortfall :
  let m := mkAmounts 1999 3333 0 0 3333 2000 0 0 in
  Reference.getOrderStatus partStorage partLeft (sigOf 11)
    = (getOrderHash partLeft, ORDER_FILLABLE, 1667)
  /\ Reference.getOrderStatus partStorage partRight (sigOf 12)
     = (getOrderHash partRight, ORDER_FILLABLE, 1000)
  /\ makerTokenAddress partLeft = takerTokenAddress partRight
  /\ takerTokenAddress partLeft = makerTokenAddress partRight
  /\ makerTokenAmount partLeft * makerTokenAmount partRight
     >= takerTokenAmount partLeft * takerTokenAmount partRight
  /\ leftIsConstraint partRight 3333 2000 = false
  /\ Reference.getMatchedFillAmounts 9 partLeft partRight 1667 1000
       Word.max_uint256 = Some (SUCCESS, m)
  /\ ~ (MatchSpec.consumedByConstrained false m
        <= MatchSpec.releasedByNonConstrained false m).
Proof.
  intros m. repeat (split; [vm_compute; reflexivity || discriminate|]).
  cbn. lia.
Qed.

(** C2. matchOrders on order A (100 of the asset at address 100 for 200 of
    the asset at address 200) and an order over the assets at 777 and 888
    whose amounts are 200 and 100: the asset pairs are not inverses, the
    context check passes because it compares left's asset addresses with
    right's amounts, and the transaction settles and writes the ledger. *)
Theorem matchOrders_accepts_mismatched_assets :
  makerTokenAddress orderA <> takerTokenAddress orderOther
  /\ takerTokenAddress orderA <> makerTokenAddress orderOther
  /\ validateMatchOrdersContextOrRevert orderA orderOther = true
  /\ match transact orderA orderOther (sigOf 11) (sigOf 12) freshStorage with
     | Some (_, mach) =>
       matched (trace Storage mach) = true
       /\ getFilled freshStorage (getOrderHash orderA) = 0
       /\ getFilled (storage Storage mach) (getOrderHash orderA) = 200
     | None => False
     end.
Proof.
  split; [discriminate|]. split; [discriminate|]. split; [reflexivity|].
  vm_compute. repeat split.
Qed.

(** C3. matchOrders on order A and an expired order B: the resolver
    reports B as expired, B is never queried, and the transaction settles
    and writes the ledger. *)
Theorem matchOrders_settles_with_expired_right_order :
  snd (fst (Reference.getOrderStatus freshStorage orderBexpired (sigOf 12)))
    = ORDER_EXPIRED
  /\ ORDER_EXPIRED <> ORDER_FILLABLE
  /\ match transact orderA orderBexpired (sigOf 11) (sigOf 12) freshStorage with
     | Some (_, mach) =>
       matched (trace Storage mach) = true
       /\ existsb (fun c => match c with
                            | QueryOrderStatus o _ =>
                              expirationTimeSeconds o =? 500
                            | _ => false
                            end) (trace Storage mach) = false
       /\ getFilled freshStorage (getOrderHash orderA) = 0
       /\ getFilled (storage Storage mach) (getOrderHash orderA) = 200
     | None => False
     end.
Proof.
  split; [reflexivity|]. split; [discriminate|].
  vm_compute. repeat split.
Qed.

(** C4. matchOrders on a half-filled left order whose fill leaves nothing
    to derive for the right order: the calculator reports a status other
    than SUCCESS, and the transaction still settles and raises the left
    ledger entry from 1 to 2. *)
Theorem matchOrders_ignores_calculator_status :
  (exists m,
      Reference.getMatchedFillAmounts 9 halfLeft halfRight 1 1 Word.max_uint256
        = Some (TAKER_TOKEN_FILL_AMOUNT_TOO_LOW, m))
  /\ TAKER_TOKEN_FILL_AMOUNT_TOO_LOW <> SUCCESS
  /\ match transact halfLeft halfRight (sigOf 11) (sigOf 12) halfFilledStorage with
     | Some (_, mach) =>
       matched (trace Storage mach) = true
       /\ getFilled halfFilledStorage (getOrderHash halfLeft) = 1
       /\ getFilled (storage Storage mach) (getOrderHash halfLeft) = 2
     | None => False
     end.
Proof.
  split; [eexists; vm_compute; reflexivity|]. split; [discriminate|].
  vm_compute. repeat split.
Qed.

(** C8. matchOrders on a left order asking 2^255 and a right order asking
    2: the product of the two taker amounts is 2^256 and does not fit, its
    low 256 bits are zero, the spread check of line 37 passes on the
    wrapped value although 1 * 1 is below 2^256, and the transaction
    settles and writes the ledger. *)
Theorem matchOrders_uses_wrapped_product :
  Word.is_uint256 (takerTokenAmount wideLeft) = true
  /\ Word.is_uint256 (takerTokenAmount wideRight) = true
  /\ Word.mul_overflows (takerTokenAmount wideLeft) (takerTokenAmount wideRight)
     = true
  /\ Word.mul (takerTokenAmount wideLeft) (takerTokenAmount wideRight) = 0
  /\ makerTokenAmount wideLeft * makerTokenAmount wideRight
     < takerTokenAmount wideLeft * takerTokenAmount wideRight
  /\ validateMatchOrdersContextOrRevert wideLeft wideRight = true
  /\ match transact wideLeft wideRight (sigOf 11) (sigOf 12) freshStorage with
     | Some (_, mach) =>
       matched (trace Storage mach) = true
       /\ getFilled freshStorage (getOrderHash wideLeft) = 0
       /\ getFilled (storage Storage mach) (getOrderHash wideLeft) = 1
     | None => False
     end.
Proof.
  repeat (split; [reflexivity|]).
  vm_compute. repeat split.
Qed.

End ReferenceRuns.

(* ===================================================================== *)
(** * Signing *)
(* ===================================================================== *)

Section Signing.

Import ZeroEx.

Variable isHexString : string -> bool.
Variable isETHAddressHex : string -> bool.
Variable isSenderAddress : string -> bool.
Variable doesConformToEcSignatureSchema : ECSignature -> bool.
Variable signatureUtils_isValidSignature : string -> ECSignature -> string -> bool.
Variable parseSignatureHexAsVRS : string -> Parsed.
Variable parseSignatureHexAsRSV : string -> Parsed.
Variable hashPersonalMessageHex : string -> string.
Variable signTransactionAsync : string -> string -> Result string.

Local Abbreviation checkSignature :=
  (isValidSignature isHexString isETHAddressHex doesConformToEcSignatureSchema
     signatureUtils_isValidSignature).
Local Abbreviation attempt :=
  (tryCandidate isHexString isETHAddressHex doesConformToEcSignatureSchema
     signatureUtils_isValidSignature).
Local Abbreviation sign :=
  (signOrderHashAsync isHexString isETHAddressHex isSenderAddress
     doesConformToEcSignatureSchema signatureUtils_isValidSignature
     parseSignatureHexAsVRS parseSignatureHexAsRSV hashPersonalMessageHex
     signTransactionAsync).
Local Abbreviation valid :=
  (validParsing isHexString isETHAddressHex doesConformToEcSignatureSchema
     signatureUtils_isValidSignature).
Local Abbreviation rejected :=
  (rejectedParsing isHexString isETHAddressHex doesConformToEcSignatureSchema
     signatureUtils_isValidSignature).

Lemma includes_In (xs : list Z) (x : Z) : includes xs x = true <-> In x xs.
Proof.
  unfold includes. rewrite existsb_exists. split.
  - intros (y & Hin & Heq). apply Z.eqb_eq in Heq. now subst.
  - intros Hin. exists x. split; [assumption|apply Z.eqb_refl].
Qed.

Lemma attempt_true (orderHash signer : string) (c : ECSignature) :
  attempt orderHash signer c = Ok true <-> valid orderHash signer c.
Proof.
  unfold tryCandidate, validParsing.
  destruct (includes validVParamValues (v c)) eqn:E.
  - apply includes_In in E. tauto.
  - split; [discriminate|]. intros [Hin _]. apply includes_In in Hin. congruence.
Qed.

Lemma attempt_false (orderHash signer : string) (c : ECSignature) :
  rejected orderHash signer c -> attempt orderHash signer c = Ok false.
Proof.
  unfold tryCandidate, rejectedParsing.
  destruct (includes validVParamValues (v c)) eqn:E.
  - apply includes_In in E. intros [Hn|H]; [contradiction|assumption].
  - reflexivity.
Qed.

(** C10. signOrderHashAsync returns a signature only if it is the VRS or
    the RSV parsing of what the signer returned for the message, its v is
    27 or 28 and it passes isValidSignature for (orderHash, signerAddress);
    and when the entry assertions pass, the signer answers, both parsers
    return a parsing and each of the two is rejected (v out of range or
    isValidSignature answering false), it throws InvalidSignature. *)
Theorem signOrderHashAsync_returns_only_valid
    (orderHash signerAddress : string) (prefix : bool) :
  (forall sig,
      sign orderHash signerAddress prefix = Ok sig ->
      exists raw,
        signTransactionAsync signerAddress
          (messageToSign hashPersonalMessageHex orderHash prefix) = Ok raw
        /\ (parseSignatureHexAsVRS raw = ParsedSignature sig
            \/ parseSignatureHexAsRSV raw = ParsedSignature sig)
        /\ In (v sig) [27; 28]
        /\ checkSignature orderHash sig signerAddress = Ok true)
  /\ (forall raw vrs rsv,
         isHexString orderHash = true ->
         isSenderAddress signerAddress = true ->
         signTransactionAsync signerAddress
           (messageToSign hashPersonalMessageHex orderHash prefix) = Ok raw ->
         parseSignatureHexAsVRS raw = ParsedSignature vrs ->
         parseSignatureHexAsRSV raw = ParsedSignature rsv ->
         rejected orderHash signerAddress vrs ->
         rejected orderHash signerAddress rsv ->
         sign orderHash signerAddress prefix = Throw InvalidSignature).
Proof.
  unfold signOrderHashAsync, messageToSign. split.
  - intros sig.
    destruct (isHexString orderHash); cbn [negb]; [|discriminate].
    destruct (isSenderAddress signerAddress); cbn [negb]; [|discriminate].
    destruct (signTransactionAsync signerAddress _) as [raw|e]; [|discriminate].
    destruct (parseSignatureHexAsVRS raw) as [vrs|msg1] eqn:P1; [|discriminate].
    destruct (attempt orderHash signerAddress vrs)
      as [[|]|e1] eqn:E1; [| |discriminate].
    + intros [= <-]. apply attempt_true in E1 as [Hv Hok].
      exists raw. repeat split; auto.
    + destruct (parseSignatureHexAsRSV raw) as [rsv|msg2] eqn:P2; [|discriminate].
      destruct (attempt orderHash signerAddress rsv)
        as [[|]|e2] eqn:E2; [| discriminate |discriminate].
      intros [= <-]. apply attempt_true in E2 as [Hv Hok].
      exists raw. repeat split; auto.
  - intros raw vrs rsv -> -> -> -> P2 H1 H2. cbn [negb].
    now rewrite (attempt_false _ _ _ H1), P2, (attempt_false _ _ _ H2).
Qed.

End Signing.

(* ===================================================================== *)
(** * Answers that no parsing makes valid *)
(* ===================================================================== *)

(** Two calls in which no parsing of the signer's answer is valid and the
    error thrown is not InvalidSignature.  For the answer "a??" the V-R-S
    parsing has v = 27 and fails the schema assertion inside
    isValidSignature, which throws.  For the two-character answer the
    V-R-S parsing has v = 0 and the R-S-V parser throws. *)
Lemma signOrderHashAsync_other_error_when_none_valid :
  ZeroEx.Sample.noValidParsing ZeroEx.Sample.wellShaped "h" "a" "a??"
  /\ ZeroEx.Sample.signStrictly ZeroEx.Sample.misshapenSigner "h" "a" false
     = ZeroEx.Throw (ZeroEx.AssertionFailed "signature")
  /\ ZeroEx.Sample.noValidParsing ZeroEx.Sample.conforms "h" "a" "zz"
  /\ ZeroEx.Sample.sign ZeroEx.Sample.shortSigner "h" "a" false
     = ZeroEx.Throw (ZeroEx.ParserFailed "Invalid signature length")
  /\ ZeroEx.Throw (A := ZeroEx.ECSignature) (ZeroEx.AssertionFailed "signature")
     <> ZeroEx.Throw ZeroEx.InvalidSignature
  /\ ZeroEx.Throw (A := ZeroEx.ECSignature)
       (ZeroEx.ParserFailed "Invalid signature length")
     <> ZeroEx.Throw ZeroEx.InvalidSignature.
Proof.
  split; [|split; [reflexivity|split; [|split; [reflexivity|split; discriminate]]]].
  - intros c [H|H]; injection H as <-; intros [Hv Hok].
    + vm_compute in Hok. discriminate Hok.
    + cbn in Hv. destruct Hv as [Hv|[Hv|[]]]; discriminate Hv.
  - intros c [H|H]; [|discriminate H]. injection H as <-. intros [Hv _].
    cbn in Hv. destruct Hv as [Hv|[Hv|[]]]; discriminate Hv.
Qed.

(* ===================================================================== *)
(** * The statements at sample inputs *)
(* ===================================================================== *)

Section AtSamples.

Import Exchange Reference Samples.

(** Left constrained, with a spread: left takes in 100 and right
    releases 200. *)
Lemma getMatchedFillAmounts_residual_nonneg_at_spread :
  let m := mkAmounts 200 100 0 0 200 200 0 0 in
  Reference.getMatchedFillAmounts 9 spreadLeft evenRight 0 50 Word.max_uint256
    = Some (SUCCESS, m)
  /\ leftIsConstraint evenRight 100 50 = true
  /\ MatchSpec.consumedByConstrained true m
     <= MatchSpec.releasedByNonConstrained true m
  /\ 0 <= residual m.
Proof.
  intros m.
  assert (E : Reference.getMatchedFillAmounts 9 spreadLeft evenRight 0 50
                Word.max_uint256 = Some (SUCCESS, m)) by reflexivity.
  split; [exact E|]. split; [reflexivity|].
  destruct (getMatchedFillAmounts_residual_nonneg SUCCESS
              Reference.getFillAmounts 9 spreadLeft evenRight 0 50
              Word.max_uint256 100 50 m eq_refl eq_refl E) as (H1 & _ & H2).
  split; [apply H1; reflexivity|exact H2].
Defined.

Lemma getMatchedFillAmounts_left_constrained_at_spread :
  leftIsConstraint evenRight 100 50 = true
  /\ Reference.getMatchedFillAmounts 9 spreadLeft evenRight 0 50 Word.max_uint256
     = MatchSpec.leftConstrained SUCCESS Reference.getFillAmounts 9
         spreadLeft evenRight 100 Word.max_uint256.
Proof.
  split; [reflexivity|].
  apply (getMatchedFillAmounts_left_constrained SUCCESS
           Reference.getFillAmounts 9 spreadLeft evenRight 0 50
           Word.max_uint256 100 50).
  - cbn. lia.
  - cbn. lia.
  - intros s a b c d H. vm_compute in H. injection H as <- <- <- <- <-. lia.
  - reflexivity.
  - reflexivity.
  - reflexivity.
Defined.

(** Right constrained: the scenario of orders A and B, both untouched. *)
Lemma getMatchedFillAmounts_right_constrained_at_AB :
  let m := mkAmounts 100 200 0 0 200 100 0 0 in
  leftIsConstraint orderB 200 100 = false
  /\ Reference.getMatchedFillAmounts 9 orderA orderB 0 0 Word.max_uint256
     = Some (SUCCESS, m)
  /\ Reference.getFillAmounts orderB 100 Word.max_uint256 9
     = Some (SUCCESS, 200, 100, 0, 0)
  /\ Reference.getFillAmounts orderA 200 Word.max_uint256 9
     = Some (SUCCESS, 100, 200, 0, 0)
  /\ leftTakerTokenFilledAmount m = rightMakerTokenFilledAmount m.
Proof.
  intros m. split; [reflexivity|]. split; [reflexivity|].
  destruct (getMatchedFillAmounts_right_constrained SUCCESS
              Reference.getFillAmounts 9 orderA orderB 0 0 Word.max_uint256
              200 100 SUCCESS m eq_refl eq_refl eq_refl eq_refl)
    as (s1 & H1 & _ & H2 & H3).
  destruct (H3 eq_refl) as [-> H4].
  split; [exact H1|]. split; [exact (H2 eq_refl)|exact H4].
Defined.

(** Orders A and B on a fresh ledger: the entry written for B sits under
    the zero hash, and B's own hash is not zero. *)
Lemma matchOrders_right_ledger_key_is_zero_at_AB :
  getOrderHash orderB <> 0
  /\ exists res mach,
       run Storage
         (Reference.matchOrders 9 orderA orderB (sigOf 11) (sigOf 12)
            Word.max_uint256) freshStorage = Some (res, mach)
       /\ res = (0, 0)
       /\ filter isStatusQuery (trace Storage mach) =
            [QueryOrderStatus orderA (sigOf 11);
             QueryOrderStatus orderA (sigOf 11)]
       /\ exists m,
            nth_error (trace Storage mach) 4 =
              Some (UpdateFilledState orderB 0
                      (rightMakerTokenFilledAmount m)
                      (rightTakerTokenFilledAmount m)
                      (rightMakerFeeAmountPaid m)
                      (rightTakerFeeAmountPaid m)).
Proof.
  split; [discriminate|].
  destruct (run Storage
              (Reference.matchOrders 9 orderA orderB (sigOf 11) (sigOf 12)
                 Word.max_uint256) freshStorage) as [[res mach]|] eqn:E.
  - exists res, mach. split; [reflexivity|].
    assert (U : existsb isLedgerUpdate (trace Storage mach) = true).
    { vm_compute in E. injection E as <- <-. reflexivity. }
    destruct (matchOrders_right_ledger_key_is_zero Storage SUCCESS
                ORDER_FILLABLE Reference.getOrderStatus
                Reference.getFillAmounts currentContextAddress
                Reference.settleMatchedOrders Reference.updateFilledState 9
                freshStorage orderA orderB (sigOf 11) (sigOf 12)
                Word.max_uint256 res mach E U) as (m & _ & Hq & Hres & Hkey).
    split; [exact Hres|]. split; [exact Hq|]. exists m. exact Hkey.
  - vm_compute in E. discriminate E.
Defined.

Import ZeroEx.

(** The honest signer answers in R-S-V order and the second parsing is
    returned; the broken signer's answer is rejected under both. *)
Lemma signOrderHashAsync_returns_only_valid_at_sample :
  Sample.sign Sample.honestSigner "h" "a" true = Ok Sample.genuine
  /\ In (v Sample.genuine) [27; 28]
  /\ Sample.sign Sample.brokenSigner "h" "a" true = Throw InvalidSignature.
Proof.
  split; [reflexivity|]. split.
  - destruct (proj1 (signOrderHashAsync_returns_only_valid
                       Sample.always Sample.always Sample.always
                       Sample.conforms Sample.recovers Sample.parseVRS
                       Sample.parseRSV Sample.prefixed Sample.honestSigner
                       "h" "a" true) Sample.genuine eq_refl)
      as (raw & _ & _ & Hv & _).
    exact Hv.
  - apply (proj2 (signOrderHashAsync_returns_only_valid
                    Sample.always Sample.always Sample.always
                    Sample.conforms Sample.recovers Sample.parseVRS
                    Sample.parseRSV Sample.prefixed Sample.brokenSigner
                    "h" "a" true) "zzz"%string
             (mkECSignature 0 "z" "z") (mkECSignature 0 "z" "z"));
      try reflexivity.
    + left. cbn. intros [H|[H|[]]]; discriminate H.
    + left. cbn. intros [H|[H|[]]]; discriminate H.
Defined.

End AtSamples.

(* ===================================================================== *)
(** * Further properties of the calculator *)
(* ===================================================================== *)

Section CalculatorMore.

Import Exchange.

Variable SUCCESS : Z.
Variable getFillAmounts : Order -> Z -> Z -> Z -> option FillAmounts.
Variable msg_sender : Z.

Local Abbreviation fillLeft := (fillLeftConstrained SUCCESS getFillAmounts msg_sender).
Local Abbreviation fillRight := (fillRightConstrained SUCCESS getFillAmounts msg_sender).
Local Abbreviation matchedFill := (getMatchedFillAmounts SUCCESS getFillAmounts msg_sender).

(** X1. getMatchedFillAmounts reverts when either order is recorded as filled
    beyond its taker amount: the subtraction of line 52 or 53 underflows
    and no fill is computed. *)
Theorem getMatchedFillAmounts_reverts_when_overfilled
    (left right : Order) (lf rf fill : Z) :
  takerTokenAmount left < lf \/ takerTokenAmount right < rf ->
  matchedFill left right lf rf fill = None.
Proof.
  intros H. unfold getMatchedFillAmounts, SafeMath.safeSub.
  destruct (Z.leb_spec lf (takerTokenAmount left)); [|reflexivity].
  destruct (Z.leb_spec rf (takerTokenAmount right)); [|reflexivity].
  lia.
Qed.

(** X2. A successful right-constrained match never fills the left order beyond
    its taker amount: the left taker amount equals right's maker amount
    (line 139), which line 121 bounds by left's remaining capacity. *)
Theorem getMatchedFillAmounts_right_constrained_no_overfill
    (left right : Order) (lf rf fill lr rr : Z) (m : MatchedOrderFillAmounts) :
  SafeMath.safeSub (takerTokenAmount left) lf = Some lr ->
  SafeMath.safeSub (takerTokenAmount right) rf = Some rr ->
  leftIsConstraint right lr rr = false ->
  matchedFill left right lf rf fill = Some (SUCCESS, m) ->
  lf + leftTakerTokenFilledAmount m <= takerTokenAmount left.
Proof.
  intros Hl Hr Hc H.
  rewrite (matchedFill_branch _ _ _ _ _ _ _ _ _ _ Hl Hr), Hc in H.
  apply fillRight_success in H as (_ & Hle & _ & Heq).
  apply safeSub_Some in Hl as [_ ->]. lia.
Qed.

(** X3. Every status that getMatchedFillAmounts returns is one that
    getFillAmounts returned for the left or the right order in the same
    transaction: the calculator never makes up a status of its own. *)
Theorem getMatchedFillAmounts_status_provenance
    (left right : Order) (lf rf fill status : Z) (m : MatchedOrderFillAmounts) :
  matchedFill left right lf rf fill = Some (status, m) ->
  exists o request a b c d,
    (o = left \/ o = right)
    /\ getFillAmounts o request fill msg_sender = Some (status, a, b, c, d).
Proof.
  intros H.
  destruct (matchedFill_remaining _ _ _ _ _ _ _ _ _ H) as (lr & rr & Hl & Hr).
  rewrite (matchedFill_branch _ _ _ _ _ _ _ _ _ _ Hl Hr) in H.
  destruct (leftIsConstraint right lr rr).
  - unfold fillLeftConstrained in H.
    destruct (getFillAmounts left lr fill msg_sender)
      as [[[[[s1 lmk] ltk] lmf] ltf]|] eqn:E1; [|discriminate].
    destruct (negb (s1 =? SUCCESS)).
    + injection H as <- <-. exists left, lr, lmk, ltk, lmf, ltf. auto.
    + destruct (LibPartialAmount.getPartialAmount _ _ _) as [rightFill|];
        [|discriminate].
      destruct (getFillAmounts right rightFill fill msg_sender)
        as [[[[[s2 rmk] rtk] rmf] rtf]|] eqn:E2; [|discriminate].
      assert (status = s2) as ->.
      { destruct (negb (s2 =? SUCCESS)); [congruence|].
        destruct (_ >=? _); [congruence|discriminate]. }
      exists right, rightFill, rmk, rtk, rmf, rtf. auto.
  - apply fillRight_result in H as (s1 & H1 & Hn & Hs).
    destruct (Z.eq_dec s1 SUCCESS) as [E|E].
    + destruct (Hs E) as (_ & H2 & _). eauto 10.
    + rewrite (Hn E). eauto 10.
Qed.

(** X4. In a successful result the four left amounts are what getFillAmounts
    handed back for the left order and the four right amounts what it handed
    back for the right order, both with status SUCCESS: amounts and fees are
    passed on unchanged. *)
Theorem getMatchedFillAmounts_success_amounts
    (left right : Order) (lf rf fill : Z) (m : MatchedOrderFillAmounts) :
  matchedFill left right lf rf fill = Some (SUCCESS, m) ->
  exists leftRequest rightRequest,
    getFillAmounts left leftRequest fill msg_sender =
      Some (SUCCESS, leftMakerTokenFilledAmount m, leftTakerTokenFilledAmount m,
            leftMakerFeeAmountPaid m, leftTakerFeeAmountPaid m)
    /\ getFillAmounts right rightRequest fill msg_sender =
         Some (SUCCESS, rightMakerTokenFilledAmount m,
               rightTakerTokenFilledAmount m,
               rightMakerFeeAmountPaid m, rightTakerFeeAmountPaid m).
Proof.
  intros H.
  destruct (matchedFill_remaining _ _ _ _ _ _ _ _ _ H) as (lr & rr & Hl & Hr).
  rewrite (matchedFill_branch _ _ _ _ _ _ _ _ _ _ Hl Hr) in H.
  destruct (leftIsConstraint right lr rr).
  - apply fillLeft_success in H as (rightFill & H1 & _ & H2 & _). eauto.
  - apply fillRight_success in H as (H1 & _ & H2 & _). eauto.
Qed.

End CalculatorMore.

(** X5. When neither product overflows 256 bits, the context
    check passes exactly when left's asset addresses equal right's amounts
    (lines 30-31 as written) and the cross-rate invariant holds. *)
Theorem validateMatchOrdersContext_exact (left right : Exchange.Order) :
  0 <= Exchange.makerTokenAmount left * Exchange.makerTokenAmount right
    < Word.modulus ->
  0 <= Exchange.takerTokenAmount left * Exchange.takerTokenAmount right
    < Word.modulus ->
  Exchange.validateMatchOrdersContextOrRevert left right = true
  <-> Exchange.makerTokenAddress left = Exchange.takerTokenAmount right
      /\ Exchange.takerTokenAddress left = Exchange.makerTokenAmount right
      /\ Exchange.takerTokenAmount left * Exchange.takerTokenAmount right
         <= Exchange.makerTokenAmount left * Exchange.makerTokenAmount right.
Proof.
  intros Ha Hb. unfold Exchange.validateMatchOrdersContextOrRevert.
  rewrite !mul_no_overflow by assumption.
  rewrite !andb_true_iff, !Z.eqb_eq, Z.geb_leb, Z.leb_le. tauto.
Qed.

(** X6. When the context check passes on two orders whose asset pairs are exact
    inverses, each amount of the right order equals the numeric value of
    the address of its own asset: no other pair of inverse orders gets
    through lines 30-31. *)
Theorem validateMatchOrdersContext_inverse_pairs (left right : Exchange.Order) :
  Exchange.validateMatchOrdersContextOrRevert left right = true ->
  Exchange.makerTokenAddress left = Exchange.takerTokenAddress right ->
  Exchange.takerTokenAddress left = Exchange.makerTokenAddress right ->
  Exchange.takerTokenAmount right = Exchange.takerTokenAddress right
  /\ Exchange.makerTokenAmount right = Exchange.makerTokenAddress right.
Proof.
  unfold Exchange.validateMatchOrdersContextOrRevert.
  rewrite !andb_true_iff, !Z.eqb_eq. intros [[H1 H2] _] H3 H4. lia.
Qed.

(* ===================================================================== *)
(** * Further properties of the orchestrator *)
(* ===================================================================== *)

Section OrchestratorMore.

Import Exchange.

Variable Storage : Type.
Variable SUCCESS : Z.
Variable ORDER_FILLABLE : Z.
Variable getFillAmounts : Order -> Z -> Z -> Z -> option FillAmounts.
Variable getCurrentContextAddress : Storage -> Z.
Variable settleMatchedOrders :
  Order -> Order -> MatchedOrderFillAmounts -> Z -> Storage -> option Storage.
Variable updateFilledState :
  Order -> Z -> Z -> Z -> Z -> Z -> Storage -> option Storage.
Variable msg_sender : Z.

Local Abbreviation matchOrdersWith getOrderStatus :=
  (Exchange.matchOrders Storage SUCCESS ORDER_FILLABLE getOrderStatus
     getFillAmounts getCurrentContextAddress settleMatchedOrders
     updateFilledState msg_sender).
Local Abbreviation matchedFill :=
  (getMatchedFillAmounts SUCCESS getFillAmounts msg_sender).
Local Abbreviation unfolded getOrderStatus :=
  (matchOrders_run Storage SUCCESS ORDER_FILLABLE getOrderStatus
     getFillAmounts getCurrentContextAddress settleMatchedOrders
     updateFilledState msg_sender).

Section OneResolver.

Variable getOrderStatus : Storage -> Order -> bytes -> Z * Z * Z.

Local Abbreviation matchOrders := (matchOrdersWith getOrderStatus).

(** X8. When the left order does not resolve to ORDER_FILLABLE, matchOrders
    returns zero for both results, emits one ExchangeStatus event carrying
    left's status and hash, and leaves the storage as it was; the right order
    is not looked at. *)
Theorem matchOrders_rejects_unfillable_left (st0 : Storage)
    (left right : Order) (leftSignature rightSignature : bytes)
    (fill h s f : Z) :
  getOrderStatus st0 left leftSignature = (h, s, f) ->
  s <> ORDER_FILLABLE ->
  run Storage (matchOrders left right leftSignature rightSignature fill) st0
    = Some ((0, 0),
            mkMachine Storage st0
              [QueryOrderStatus left leftSignature; EmitExchangeStatus s h]).
Proof.
  intros Hq Hs. rewrite (unfolded getOrderStatus), Hq.
  apply Z.eqb_neq in Hs. now rewrite Hs.
Qed.

(** X9. When the left order is fillable and the context check fails, the whole
    transaction reverts: no event, no settlement, no ledger write. *)
Theorem matchOrders_reverts_on_invalid_context (st0 : Storage)
    (left right : Order) (leftSignature rightSignature : bytes)
    (fill h f : Z) :
  getOrderStatus st0 left leftSignature = (h, ORDER_FILLABLE, f) ->
  validateMatchOrdersContextOrRevert left right = false ->
  run Storage (matchOrders left right leftSignature rightSignature fill) st0
    = None.
Proof.
  intros Hq Hv. rewrite (unfolded getOrderStatus), Hq, Z.eqb_refl, Hv.
  reflexivity.
Qed.

(** X10. Every completed transaction of matchOrders is one of two kinds: a
    rejection that returns zeros, has settled nothing, written no ledger
    entry and left the storage as it was; or a match, whose context check
    passed and whose trace holds the settlement and both ledger updates.
    No completed transaction settles without writing both entries. *)
Theorem matchOrders_all_or_nothing (st0 : Storage)
    (left right : Order) (leftSignature rightSignature : bytes) (fill : Z)
    (res : Z * Z) (mach : Machine Storage) :
  run Storage (matchOrders left right leftSignature rightSignature fill) st0
    = Some (res, mach) ->
  (res = (0, 0)
   /\ storage Storage mach = st0
   /\ untouched (trace Storage mach) = true)
  \/ (validateMatchOrdersContextOrRevert left right = true
      /\ matched (trace Storage mach) = true).
Proof.
  rewrite (unfolded getOrderStatus).
  destruct (getOrderStatus st0 left leftSignature) as [[h s] f].
  destruct (negb (s =? ORDER_FILLABLE)).
  { intros [= <- <-]. left. repeat split. }
  destruct (validateMatchOrdersContextOrRevert left right); [|discriminate].
  destruct (matchedFill left right f f fill) as [[status m]|]; [|discriminate].
  cbn zeta.
  destruct (settleMatchedOrders left right m _ st0) as [st1|]; [|discriminate].
  destruct (updateFilledState left h _ _ _ _ st1) as [st2|]; [|discriminate].
  destruct (updateFilledState right 0 _ _ _ _ st2) as [st3|]; [|discriminate].
  intros [= <- <-]. right. split; reflexivity.
Qed.

(** X11. The storage a settled transaction ends in is the storage it started
    from taken through settleMatchedOrders, then updateFilledState for the
    left order, then updateFilledState for the right order, in that order and
    each of them succeeding, on the amounts getMatchedFillAmounts computed
    from left's filled amount for both orders. *)
Theorem matchOrders_settled_storage (st0 : Storage)
    (left right : Order) (leftSignature rightSignature : bytes) (fill : Z)
    (res : Z * Z) (mach : Machine Storage) :
  run Storage (matchOrders left right leftSignature rightSignature fill) st0
    = Some (res, mach) ->
  existsb isSettle (trace Storage mach) = true ->
  exists status m st1 st2,
    matchedFill left right
      (snd (getOrderStatus st0 left leftSignature))
      (snd (getOrderStatus st0 left leftSignature)) fill = Some (status, m)
    /\ settleMatchedOrders left right m (getCurrentContextAddress st0) st0
       = Some st1
    /\ updateFilledState left (fst (fst (getOrderStatus st0 left leftSignature)))
         (leftMakerTokenFilledAmount m) (leftTakerTokenFilledAmount m)
         (leftMakerFeeAmountPaid m) (leftTakerFeeAmountPaid m) st1 = Some st2
    /\ updateFilledState right 0
         (rightMakerTokenFilledAmount m) (rightTakerTokenFilledAmount m)
         (rightMakerFeeAmountPaid m) (rightTakerFeeAmountPaid m) st2
       = Some (storage Storage mach).
Proof.
  rewrite (unfolded getOrderStatus).
  destruct (getOrderStatus st0 left leftSignature) as [[h s] f]. cbn [fst snd].
  destruct (negb (s =? ORDER_FILLABLE)).
  { intros [= <- <-]. cbn. discriminate. }
  destruct (validateMatchOrdersContextOrRevert left right); [|discriminate].
  destruct (matchedFill left right f f fill) as [[status m]|]; [|discriminate].
  cbn zeta.
  destruct (settleMatchedOrders left right m _ st0) as [st1|] eqn:E1;
    [|discriminate].
  destruct (updateFilledState left h _ _ _ _ st1) as [st2|] eqn:E2;
    [|discriminate].
  destruct (updateFilledState right 0 _ _ _ _ st2) as [st3|] eqn:E3;
    [|discriminate].
  intros [= <- <-] _. exists status, m, st1, st2. cbn. auto.
Qed.

End OneResolver.

(** X12. The outcome of matchOrders depends on the status resolver only through
    what it reports for the left order with the left signature, and not at
    all on the right signature: how the right order resolves, and whether
    its signature is genuine, changes nothing. *)
Theorem matchOrders_ignores_right_resolution
    (resolverA resolverB : Storage -> Order -> bytes -> Z * Z * Z)
    (st0 : Storage) (left right : Order)
    (leftSignature rightSignatureA rightSignatureB : bytes) (fill : Z) :
  resolverA st0 left leftSignature = resolverB st0 left leftSignature ->
  run Storage
    (matchOrdersWith resolverA left right leftSignature rightSignatureA fill) st0
  = run Storage
      (matchOrdersWith resolverB left right leftSignature rightSignatureB fill) st0.
Proof.
  intros H. rewrite (unfolded resolverA), (unfolded resolverB), H. reflexivity.
Qed.

End OrchestratorMore.

(* ===================================================================== *)
(** * Further properties of signing *)
(* ===================================================================== *)

Section SigningMore.

Import ZeroEx.

Variable isHexString : string -> bool.
Variable isETHAddressHex : string -> bool.
Variable isSenderAddress : string -> bool.
Variable doesConformToEcSignatureSchema : ECSignature -> bool.
Variable signatureUtils_isValidSignature : string -> ECSignature -> string -> bool.
Variable parseSignatureHexAsVRS : string -> Parsed.
Variable parseSignatureHexAsRSV : string -> Parsed.
Variable hashPersonalMessageHex : string -> string.
Variable signTransactionAsync : string -> string -> Result string.

Local Abbreviation attempt :=
  (tryCandidate isHexString isETHAddressHex doesConformToEcSignatureSchema
     signatureUtils_isValidSignature).
Local Abbreviation sign :=
  (signOrderHashAsync isHexString isETHAddressHex isSenderAddress
     doesConformToEcSignatureSchema signatureUtils_isValidSignature
     parseSignatureHexAsVRS parseSignatureHexAsRSV hashPersonalMessageHex
     signTransactionAsync).
Local Abbreviation valid :=
  (validParsing isHexString isETHAddressHex doesConformToEcSignatureSchema
     signatureUtils_isValidSignature).
Local Abbreviation rejected :=
  (rejectedParsing isHexString isETHAddressHex doesConformToEcSignatureSchema
     signatureUtils_isValidSignature).
Local Abbreviation attempt_valid :=
  (attempt_true isHexString isETHAddressHex isSenderAddress
     doesConformToEcSignatureSchema signatureUtils_isValidSignature
     parseSignatureHexAsVRS parseSignatureHexAsRSV hashPersonalMessageHex
     signTransactionAsync).
Local Abbreviation attempt_rejected :=
  (attempt_false isHexString isETHAddressHex doesConformToEcSignatureSchema
     signatureUtils_isValidSignature).

(** A rejected attempt is exactly a rejected parsing. *)
Lemma attempt_false_iff (orderHash signer : string) (c : ECSignature) :
  attempt orderHash signer c = Ok false <-> rejected orderHash signer c.
Proof.
  split; [|apply attempt_rejected].
  unfold tryCandidate, rejectedParsing.
  destruct (includes validVParamValues (v c)) eqn:E.
  - intros H. right. exact H.
  - intros _. left. intros Hin.
    apply (includes_In validVParamValues) in Hin. congruence.
Qed.

(** X13. When the entry assertions pass and the signer answers, a valid VRS
    parsing is returned whatever the RSV parser would do with the answer:
    the V-R-S layout has priority. *)
Theorem signOrderHashAsync_prefers_VRS
    (orderHash signerAddress raw : string) (prefix : bool) (vrs : ECSignature) :
  isHexString orderHash = true ->
  isSenderAddress signerAddress = true ->
  signTransactionAsync signerAddress
    (messageToSign hashPersonalMessageHex orderHash prefix) = Ok raw ->
  parseSignatureHexAsVRS raw = ParsedSignature vrs ->
  valid orderHash signerAddress vrs ->
  sign orderHash signerAddress prefix = Ok vrs.
Proof.
  unfold signOrderHashAsync, messageToSign. intros -> -> -> -> Hv. cbn [negb].
  apply attempt_valid in Hv. now rewrite Hv.
Qed.

(** X14. When the entry assertions pass, the signer answers and the VRS parsing
    is rejected, a valid RSV parsing is returned. *)
Theorem signOrderHashAsync_falls_back_to_RSV
    (orderHash signerAddress raw : string) (prefix : bool)
    (vrs rsv : ECSignature) :
  isHexString orderHash = true ->
  isSenderAddress signerAddress = true ->
  signTransactionAsync signerAddress
    (messageToSign hashPersonalMessageHex orderHash prefix) = Ok raw ->
  parseSignatureHexAsVRS raw = ParsedSignature vrs ->
  rejected orderHash signerAddress vrs ->
  parseSignatureHexAsRSV raw = ParsedSignature rsv ->
  valid orderHash signerAddress rsv ->
  sign orderHash signerAddress prefix = Ok rsv.
Proof.
  unfold signOrderHashAsync, messageToSign. intros -> -> -> -> Hr -> Hv.
  cbn [negb]. apply attempt_rejected in Hr. apply attempt_valid in Hv.
  now rewrite Hr, Hv.
Qed.

(** X15. signOrderHashAsync throws InvalidSignature only after both entry
    assertions passed, the signer answered and both parsers returned, and
    only when both parsings of the answer were rejected; a failed assertion
    or a parser error is never reported as InvalidSignature.  The signer's
    own failures are taken to be other errors than InvalidSignature. *)
Theorem signOrderHashAsync_InvalidSignature_only_if_both_rejected
    (orderHash signerAddress : string) (prefix : bool) :
  (forall a msg, signTransactionAsync a msg <> Throw InvalidSignature) ->
  sign orderHash signerAddress prefix = Throw InvalidSignature ->
  isHexString orderHash = true
  /\ isSenderAddress signerAddress = true
  /\ exists raw vrs rsv,
       signTransactionAsync signerAddress
         (messageToSign hashPersonalMessageHex orderHash prefix) = Ok raw
       /\ parseSignatureHexAsVRS raw = ParsedSignature vrs
       /\ parseSignatureHexAsRSV raw = ParsedSignature rsv
       /\ rejected orderHash signerAddress vrs
       /\ rejected orderHash signerAddress rsv.
Proof.
  intros Hsigner. unfold signOrderHashAsync, messageToSign.
  destruct (isHexString orderHash); cbn [negb]; [|discriminate].
  destruct (isSenderAddress signerAddress); cbn [negb]; [|discriminate].
  destruct (signTransactionAsync signerAddress _) as [raw|e] eqn:Es.
  2:{ intros [= ->]. now apply Hsigner in Es. }
  destruct (parseSignatureHexAsVRS raw) as [vrs|msg1] eqn:P1; [|discriminate].
  destruct (attempt orderHash signerAddress vrs) as [[|]|e1] eqn:E1;
    [discriminate| |].
  2:{ intros [= ->]. unfold tryCandidate, isValidSignature in E1.
      repeat match type of E1 with
             | (if ?b then _ else _) = _ => destruct b
             end; discriminate. }
  destruct (parseSignatureHexAsRSV raw) as [rsv|msg2] eqn:P2; [|discriminate].
  destruct (attempt orderHash signerAddress rsv) as [[|]|e2] eqn:E2;
    [discriminate| |].
  2:{ intros [= ->]. unfold tryCandidate, isValidSignature in E2.
      repeat match type of E2 with
             | (if ?b then _ else _) = _ => destruct b
             end; discriminate. }
  intros _. repeat split. exists raw, vrs, rsv.
  apply attempt_false_iff in E1. apply attempt_false_iff in E2. auto.
Qed.

End SigningMore.

(* ===================================================================== *)
(** * Decimal rounding *)
(* ===================================================================== *)

Section Decimals.

Local Open Scope Q_scope.

Lemma pow10_value (n : nat) :
  BigNumber.pow (inject_Z 10) n == inject_Z (10 ^ Z.of_nat n).
Proof.
  unfold BigNumber.pow. symmetry. apply Zpower_Qpower. apply Nat2Z.is_nonneg.
Qed.

Lemma pow10_pos (n : nat) : 0 < BigNumber.pow (inject_Z 10) n.
Proof.
  rewrite pow10_value. change 0 with (inject_Z 0). rewrite <- Zlt_Qlt.
  apply Z.pow_pos_nonneg; [reflexivity|apply Nat2Z.is_nonneg].
Qed.

Add Parametric Morphism : BigNumber.roundHalfUp
  with signature Qeq ==> eq as roundHalfUp_comp.
Proof.
  intros x y H. unfold BigNumber.roundHalfUp.
  assert (E : Qle_bool 0 x = Qle_bool 0 y).
  { apply eq_true_iff_eq. rewrite !Qle_bool_iff, H. reflexivity. }
  rewrite E. destruct (Qle_bool 0 y); now rewrite H.
Qed.

Lemma Qfloor_plus_half (n : Z) : Qfloor (inject_Z n + (1 # 2)) = n.
Proof.
  unfold Qfloor, Qplus, inject_Z. simpl Qnum. simpl Qden.
  change (Z.pos (1 * 2)) with 2%Z.
  symmetry. apply Z.div_unique with 1%Z; lia.
Qed.

(** A whole number is its own rounding. *)
Lemma roundHalfUp_whole (n : Z) : BigNumber.roundHalfUp (inject_Z n) = n.
Proof.
  unfold BigNumber.roundHalfUp.
  destruct (Qle_bool 0 (inject_Z n)).
  - apply Qfloor_plus_half.
  - change (- inject_Z n) with (inject_Z (- n)).
    rewrite Qfloor_plus_half. lia.
Qed.

(** Rounding keeps a non-negative value between zero and any whole upper
    bound. *)
Lemma roundHalfUp_bounds (x : Q) (N : Z) :
  0 <= x -> x <= inject_Z N ->
  (0 <= BigNumber.roundHalfUp x <= N)%Z.
Proof.
  intros H0 HN. unfold BigNumber.roundHalfUp.
  apply Qle_bool_iff in H0 as Hb. rewrite Hb. split.
  - change 0%Z with (Qfloor 0). apply Qfloor_resp_le.
    apply Qle_trans with x; [assumption|].
    rewrite <- (Qplus_0_r x) at 1. apply Qplus_le_r. discriminate.
  - rewrite <- (Qfloor_plus_half N) at 1. apply Qfloor_resp_le.
    now apply Qplus_le_l.
Qed.

(** A value is whole exactly when [hasDecimals] is false. *)
Lemma hasDecimals_false_iff (x : Q) :
  BigNumber.hasDecimals x = false <-> exists z, x == inject_Z z.
Proof.
  unfold BigNumber.hasDecimals. rewrite negb_false_iff, Qeq_bool_iff. split.
  - intros H. now exists (Qfloor x).
  - intros [z H]. rewrite H at 2. rewrite Qfloor_Z. exact H.
Qed.

(** Rounding to [places] places leaves alone a quotient of a whole number
    by a power of ten with no more than [places] digits. *)
Lemma roundTo_exact (places d : nat) (n : Z) :
  (d <= places)%nat ->
  BigNumber.roundTo places (inject_Z n / BigNumber.pow (inject_Z 10) d)
  == inject_Z n / BigNumber.pow (inject_Z 10) d.
Proof.
  intros Hd. unfold BigNumber.roundTo.
  assert (Hp := pow10_pos d). assert (Hq := pow10_pos places).
  assert (E : inject_Z n / BigNumber.pow (inject_Z 10) d
              * BigNumber.pow (inject_Z 10) places
              == inject_Z (n * 10 ^ Z.of_nat (places - d))).
  { rewrite inject_Z_mult, <- pow10_value.
    replace places with (d + (places - d))%nat at 1 by lia.
    unfold BigNumber.pow. rewrite Nat2Z.inj_add, Qpower_plus by discriminate.
    field. apply Qnot_eq_sym, Qlt_not_eq. exact Hp. }
  rewrite E, roundHalfUp_whole, <- E. field.
  split; apply Qnot_eq_sym, Qlt_not_eq; assumption.
Qed.

End Decimals.

(* ===================================================================== *)
(** * The salt and the unit conversions *)
(* ===================================================================== *)

Section UnitsTheory.

Import Units.
Local Open Scope Q_scope.

Variable DECIMAL_PLACES : nat.
Variable isValidBaseUnitAmount : Q -> bool.

Local Abbreviation toUnit := (toUnitAmount DECIMAL_PLACES isValidBaseUnitAmount).

Lemma pow10_nonzero (n : nat) : ~ BigNumber.pow (inject_Z 10) n == 0.
Proof. apply Qnot_eq_sym, Qlt_not_eq, pow10_pos. Qed.

(** X16. With at most 78 digits requested, the salt is a whole number from 0 to
    10^77 and so fits an unsigned 256-bit word, whatever the generator
    draws. *)
Theorem generatePseudoRandomSalt_fits_uint256 (digits : nat) (draw : Z) :
  (1 <= digits <= 78)%nat ->
  (0 <= draw < 10 ^ Z.of_nat digits)%Z ->
  exists z,
    generatePseudoRandomSalt digits draw = inject_Z z
    /\ (0 <= z <= 10 ^ 77)%Z
    /\ Word.is_uint256 z = true.
Proof.
  intros Hd Hdraw. unfold generatePseudoRandomSalt, BigNumber.round.
  eexists. split; [reflexivity|].
  assert (Hp := pow10_pos digits). assert (Hq := pow10_pos (digits - 1)).
  assert (Hx : 0 <= BigNumber.random digits draw <= 1).
  { unfold BigNumber.random. split.
    - apply Qle_shift_div_l; [assumption|]. rewrite Qmult_0_l.
      change 0 with (inject_Z 0). rewrite <- Zle_Qle. lia.
    - apply Qle_shift_div_r; [assumption|]. rewrite Qmult_1_l, pow10_value.
      rewrite <- Zle_Qle. lia. }
  destruct (roundHalfUp_bounds
              (BigNumber.times (BigNumber.random digits draw)
                 (BigNumber.pow (inject_Z 10) (digits - 1)))
              (10 ^ Z.of_nat (digits - 1))) as [H0 H1].
  - unfold BigNumber.times. apply Qmult_le_0_compat; [tauto|].
    apply Qlt_le_weak. assumption.
  - unfold BigNumber.times. rewrite <- pow10_value.
    rewrite <- (Qmult_1_l (BigNumber.pow (inject_Z 10) (digits - 1))) at 2.
    apply Qmult_le_r; [assumption|tauto].
  - assert (Hb : (10 ^ Z.of_nat (digits - 1) <= 10 ^ 77)%Z).
    { apply Z.pow_le_mono_r; lia. }
    split; [lia|].
    unfold Word.is_uint256. apply andb_true_iff. split.
    + apply Z.leb_le. lia.
    + apply Z.ltb_lt. assert (10 ^ 77 < Word.modulus)%Z by reflexivity. lia.
Qed.

(** A quotient of a whole number by 10^decimals is converted to that whole
    number. *)
Lemma toBaseUnitAmount_whole (amount : Q) (decimals : nat) (z : Z) :
  amount == inject_Z z / inject_Z (10 ^ Z.of_nat decimals) ->
  exists r, toBaseUnitAmount amount decimals = Ok r /\ r == inject_Z z.
Proof.
  intros Hz. assert (Hn := pow10_nonzero decimals).
  assert (Hw : amount * BigNumber.pow (inject_Z 10) decimals == inject_Z z).
  { rewrite Hz, <- pow10_value. now field. }
  unfold toBaseUnitAmount, BigNumber.times.
  assert (F : BigNumber.hasDecimals
                (amount * BigNumber.pow (inject_Z 10) decimals) = false).
  { apply hasDecimals_false_iff. now exists z. }
  rewrite F. eexists. split; [reflexivity|exact Hw].
Qed.

(** What toBaseUnitAmount returns is whole, and the amount is its quotient
    by 10^decimals. *)
Lemma toBaseUnitAmount_Ok_inv (amount r : Q) (decimals : nat) :
  toBaseUnitAmount amount decimals = Ok r ->
  exists z, r == inject_Z z
            /\ amount == inject_Z z / inject_Z (10 ^ Z.of_nat decimals).
Proof.
  assert (Hn := pow10_nonzero decimals).
  unfold toBaseUnitAmount, BigNumber.times.
  destruct (BigNumber.hasDecimals (amount * BigNumber.pow (inject_Z 10) decimals))
    eqn:E; [discriminate|].
  intros [= <-]. apply hasDecimals_false_iff in E as [z Hz].
  exists z. split; [exact Hz|]. rewrite <- Hz, <- pow10_value. now field.
Qed.

(** X17. toBaseUnitAmount succeeds exactly on amounts with at most [decimals]
    decimal places, that is on the quotients of a whole number by
    10^decimals, and then returns that whole number; on every other amount
    it throws. *)
Theorem toBaseUnitAmount_succeeds_iff (amount : Q) (decimals : nat) :
  (forall r, toBaseUnitAmount amount decimals = Ok r ->
             exists z, r == inject_Z z
                       /\ amount == inject_Z z / inject_Z (10 ^ Z.of_nat decimals))
  /\ (forall z, amount == inject_Z z / inject_Z (10 ^ Z.of_nat decimals) ->
                exists r, toBaseUnitAmount amount decimals = Ok r
                          /\ r == inject_Z z)
  /\ ((forall z, ~ amount == inject_Z z / inject_Z (10 ^ Z.of_nat decimals)) ->
      toBaseUnitAmount amount decimals = Throw (TooManyDecimalPlaces amount)).
Proof.
  split; [|split].
  - intros r. apply toBaseUnitAmount_Ok_inv.
  - intros z. apply toBaseUnitAmount_whole.
  - intros Hno.
    destruct (toBaseUnitAmount amount decimals) as [r|e] eqn:E.
    + apply toBaseUnitAmount_Ok_inv in E as (z & _ & Hz). now destruct (Hno z).
    + revert E. unfold toBaseUnitAmount.
      destruct (BigNumber.hasDecimals _); [intros [= <-]; reflexivity|discriminate].
Qed.

(** X18. Base units to units and back: for a whole amount that passes the
    base-unit assertion and a token with no more decimals than the
    configured DECIMAL_PLACES, toUnitAmount succeeds and toBaseUnitAmount of
    its result gives the amount back. *)
Theorem toBaseUnitAmount_toUnitAmount (a : Z) (decimals : nat) :
  isValidBaseUnitAmount (inject_Z a) = true ->
  (decimals <= DECIMAL_PLACES)%nat ->
  exists unit back,
    toUnit (inject_Z a) decimals = Ok unit
    /\ toBaseUnitAmount unit decimals = Ok back
    /\ back == inject_Z a.
Proof.
  intros Hvalid Hd. unfold toUnitAmount. rewrite Hvalid. cbn [negb].
  eexists. 
  assert (Hu : BigNumber.div DECIMAL_PLACES (inject_Z a)
                 (BigNumber.pow (inject_Z 10) decimals)
               == inject_Z a / inject_Z (10 ^ Z.of_nat decimals)).
  { unfold BigNumber.div. rewrite roundTo_exact by assumption.
    now rewrite pow10_value. }
  destruct (toBaseUnitAmount_whole _ decimals a Hu) as (back & Hb & Heq).
  exists back. auto.
Qed.

(** X19. Units to base units and back: when toBaseUnitAmount succeeds, its result
    passes the base-unit assertion and the token has no more decimals than
    DECIMAL_PLACES, toUnitAmount of the result is the amount started from. *)
Theorem toUnitAmount_toBaseUnitAmount (amount base : Q) (decimals : nat) :
  toBaseUnitAmount amount decimals = Ok base ->
  isValidBaseUnitAmount base = true ->
  (decimals <= DECIMAL_PLACES)%nat ->
  exists unit, toUnit base decimals = Ok unit /\ unit == amount.
Proof.
  intros Hb Hvalid Hd.
  destruct (toBaseUnitAmount_Ok_inv amount base decimals Hb) as (z & Hz & Ha).
  unfold toUnitAmount. rewrite Hvalid. cbn [negb]. eexists. split; [reflexivity|].
  unfold BigNumber.div.
  assert (E : base / BigNumber.pow (inject_Z 10) decimals
              == inject_Z z / BigNumber.pow (inject_Z 10) decimals).
  { now rewrite Hz. }
  assert (R : BigNumber.roundTo DECIMAL_PLACES
                (base / BigNumber.pow (inject_Z 10) decimals)
              == BigNumber.roundTo DECIMAL_PLACES
                   (inject_Z z / BigNumber.pow (inject_Z 10) decimals)).
  { unfold BigNumber.roundTo.
    assert (F : BigNumber.roundHalfUp
                  (base / BigNumber.pow (inject_Z 10) decimals
                   * BigNumber.pow (inject_Z 10) DECIMAL_PLACES)
                = BigNumber.roundHalfUp
                    (inject_Z z / BigNumber.pow (inject_Z 10) decimals
                     * BigNumber.pow (inject_Z 10) DECIMAL_PLACES)).
    { apply roundHalfUp_comp. rewrite E. reflexivity. }
    rewrite F. reflexivity. }
  rewrite R, roundTo_exact by assumption. now rewrite Ha, pow10_value.
Qed.

End UnitsTheory.

(* ===================================================================== *)
(** * The further statements at sample inputs *)
(* ===================================================================== *)

Section MoreAtSamples.

Import Exchange Reference Samples MoreSamples.

Lemma getMatchedFillAmounts_reverts_when_overfilled_at_A :
  takerTokenAmount orderA < 201
  /\ Reference.getMatchedFillAmounts 9 orderA orderB 201 0 Word.max_uint256 = None.
Proof.
  split; [reflexivity|].
  apply (getMatchedFillAmounts_reverts_when_overfilled SUCCESS
           Reference.getFillAmounts 9 orderA orderB 201 0 Word.max_uint256).
  left. reflexivity.
Defined.

Lemma getMatchedFillAmounts_right_constrained_no_overfill_at_part :
  Reference.getMatchedFillAmounts 9 partLeft partRight 1667 1000 Word.max_uint256
    = Some (SUCCESS, mkAmounts 1999 3333 0 0 3333 2000 0 0)
  /\ 1667 + 3333 <= takerTokenAmount partLeft.
Proof.
  split; [reflexivity|].
  apply (getMatchedFillAmounts_right_constrained_no_overfill SUCCESS
           Reference.getFillAmounts 9 partLeft partRight 1667 1000
           Word.max_uint256 3333 2000 (mkAmounts 1999 3333 0 0 3333 2000 0 0));
    reflexivity.
Defined.

Lemma getMatchedFillAmounts_status_provenance_at_half :
  Reference.getMatchedFillAmounts 9 halfLeft halfRight 1 1 Word.max_uint256
    = Some (TAKER_TOKEN_FILL_AMOUNT_TOO_LOW, mkAmounts 0 1 0 0 0 0 0 0)
  /\ exists o request a b c d,
       (o = halfLeft \/ o = halfRight)
       /\ Reference.getFillAmounts o request Word.max_uint256 9
          = Some (TAKER_TOKEN_FILL_AMOUNT_TOO_LOW, a, b, c, d).
Proof.
  split; [reflexivity|].
  apply (getMatchedFillAmounts_status_provenance SUCCESS
           Reference.getFillAmounts 9 halfLeft halfRight 1 1 Word.max_uint256
           TAKER_TOKEN_FILL_AMOUNT_TOO_LOW (mkAmounts 0 1 0 0 0 0 0 0)).
  reflexivity.
Defined.

Lemma getMatchedFillAmounts_success_amounts_at_spread :
  exists leftRequest rightRequest,
    Reference.getFillAmounts spreadLeft leftRequest Word.max_uint256 9
      = Some (SUCCESS, 200, 100, 0, 0)
    /\ Reference.getFillAmounts evenRight rightRequest Word.max_uint256 9
       = Some (SUCCESS, 200, 200, 0, 0).
Proof.
  apply (getMatchedFillAmounts_success_amounts SUCCESS
           Reference.getFillAmounts 9 spreadLeft evenRight 0 50
           Word.max_uint256 (mkAmounts 200 100 0 0 200 200 0 0)).
  reflexivity.
Defined.

Lemma validateMatchOrdersContext_exact_at_AB :
  validateMatchOrdersContextOrRevert orderA orderB = true
  /\ takerTokenAmount orderA * takerTokenAmount orderB
     <= makerTokenAmount orderA * makerTokenAmount orderB.
Proof.
  split; [reflexivity|].
  apply (validateMatchOrdersContext_exact orderA orderB).
  - split; [discriminate|reflexivity].
  - split; [discriminate|reflexivity].
  - reflexivity.
Defined.

Lemma validateMatchOrdersContext_inverse_pairs_at_AB :
  takerTokenAmount orderB = takerTokenAddress orderB
  /\ makerTokenAmount orderB = makerTokenAddress orderB.
Proof.
  apply (validateMatchOrdersContext_inverse_pairs orderA orderB); reflexivity.
Defined.

Lemma leftIsConstraint_exact_at_spread :
  makerTokenAmount evenRight * 50 < takerTokenAmount evenRight * 100.
Proof.
  apply (leftIsConstraint_exact evenRight 100 50).
  - split; [discriminate|reflexivity].
  - split; [discriminate|reflexivity].
  - reflexivity.
Defined.

Local Abbreviation transactWith resolver left right ls rs st0 :=
  (run Storage
     (Exchange.matchOrders Storage SUCCESS ORDER_FILLABLE resolver
        Reference.getFillAmounts currentContextAddress
        Reference.settleMatchedOrders Reference.updateFilledState 9
        left right ls rs Word.max_uint256) st0).

(** An expired order on the left: the event carries ORDER_EXPIRED. *)
Lemma matchOrders_rejects_unfillable_left_at_expired :
  transactWith Reference.getOrderStatus orderBexpired orderA (sigOf 12)
    (sigOf 11) freshStorage
  = Some ((0, 0),
          mkMachine Storage freshStorage
            [QueryOrderStatus orderBexpired (sigOf 12);
             EmitExchangeStatus ORDER_EXPIRED (getOrderHash orderBexpired)]).
Proof.
  apply (matchOrders_rejects_unfillable_left Storage SUCCESS ORDER_FILLABLE
           Reference.getFillAmounts currentContextAddress
           Reference.settleMatchedOrders Reference.updateFilledState 9
           Reference.getOrderStatus freshStorage orderBexpired orderA
           (sigOf 12) (sigOf 11) Word.max_uint256
           (getOrderHash orderBexpired) ORDER_EXPIRED 0).
  - reflexivity.
  - discriminate.
Defined.

(** Order A against its true counterpart with amounts 400 and 200: inverse
    asset pairs, crossing rates, and the transaction reverts. *)
Lemma matchOrders_reverts_on_invalid_context_at_double :
  makerTokenAddress orderA = takerTokenAddress orderBdouble
  /\ takerTokenAddress orderA = makerTokenAddress orderBdouble
  /\ transactWith Reference.getOrderStatus orderA orderBdouble (sigOf 11)
       (sigOf 12) freshStorage = None.
Proof.
  split; [reflexivity|]. split; [reflexivity|].
  apply (matchOrders_reverts_on_invalid_context Storage SUCCESS ORDER_FILLABLE
           Reference.getFillAmounts currentContextAddress
           Reference.settleMatchedOrders Reference.updateFilledState 9
           Reference.getOrderStatus freshStorage orderA orderBdouble
           (sigOf 11) (sigOf 12) Word.max_uint256 (getOrderHash orderA) 0);
    reflexivity.
Defined.

Lemma matchOrders_all_or_nothing_at_AB :
  exists res mach,
    transactWith Reference.getOrderStatus orderA orderB (sigOf 11) (sigOf 12)
      freshStorage = Some (res, mach)
    /\ ((res = (0, 0)
         /\ storage Storage mach = freshStorage
         /\ untouched (trace Storage mach) = true)
        \/ (validateMatchOrdersContextOrRevert orderA orderB = true
            /\ matched (trace Storage mach) = true)).
Proof.
  destruct (transactWith Reference.getOrderStatus orderA orderB (sigOf 11)
              (sigOf 12) freshStorage) as [[res mach]|] eqn:E.
  - exists res, mach. split; [reflexivity|].
    apply (matchOrders_all_or_nothing Storage SUCCESS ORDER_FILLABLE
             Reference.getFillAmounts currentContextAddress
             Reference.settleMatchedOrders Reference.updateFilledState 9
             Reference.getOrderStatus freshStorage orderA orderB
             (sigOf 11) (sigOf 12) Word.max_uint256 res mach E).
  - vm_compute in E. discriminate E.
Defined.

Lemma matchOrders_settled_storage_at_AB :
  exists res mach st2,
    transactWith Reference.getOrderStatus orderA orderB (sigOf 11) (sigOf 12)
      freshStorage = Some (res, mach)
    /\ Reference.updateFilledState orderB 0 200 100 0 0 st2
       = Some (storage Storage mach).
Proof.
  destruct (transactWith Reference.getOrderStatus orderA orderB (sigOf 11)
              (sigOf 12) freshStorage) as [[res mach]|] eqn:E.
  - assert (U : existsb isSettle (trace Storage mach) = true).
    { vm_compute in E. injection E as <- <-. reflexivity. }
    destruct (matchOrders_settled_storage Storage SUCCESS ORDER_FILLABLE
                Reference.getFillAmounts currentContextAddress
                Reference.settleMatchedOrders Reference.updateFilledState 9
                Reference.getOrderStatus freshStorage orderA orderB
                (sigOf 11) (sigOf 12) Word.max_uint256 res mach E U)
      as (status & m & st1 & st2 & Hm & _ & _ & H3).
    exists res, mach, st2. split; [reflexivity|].
    vm_compute in Hm. injection Hm as <- <-. exact H3.
  - vm_compute in E. discriminate E.
Defined.

(** The reference resolver and one that reports every order but A as
    cancelled give the same transaction, with or without B's signature. *)
Lemma matchOrders_ignores_right_resolution_at_AB :
  snd (fst (onlyA freshStorage orderB (sigOf 12))) = ORDER_CANCELLED
  /\ transactWith Reference.getOrderStatus orderA orderB (sigOf 11) (sigOf 12)
       freshStorage
     = transactWith onlyA orderA orderB (sigOf 11) [] freshStorage.
Proof.
  split; [reflexivity|].
  apply (matchOrders_ignores_right_resolution Storage SUCCESS ORDER_FILLABLE
           Reference.getFillAmounts currentContextAddress
           Reference.settleMatchedOrders Reference.updateFilledState 9
           Reference.getOrderStatus onlyA freshStorage orderA orderB
           (sigOf 11) (sigOf 12) [] Word.max_uint256).
  reflexivity.
Defined.

Import ZeroEx.

Local Abbreviation signWith signer :=
  (signOrderHashAsync Sample.always Sample.always Sample.always Sample.conforms
     Sample.recovers Sample.parseVRS Sample.parseRSV Sample.prefixed signer).

Lemma signOrderHashAsync_prefers_VRS_at_sample :
  signWith vrsSigner "h" "a" false = Ok Sample.genuine.
Proof.
  apply (signOrderHashAsync_prefers_VRS Sample.always Sample.always
           Sample.always Sample.conforms Sample.recovers Sample.parseVRS
           Sample.parseRSV Sample.prefixed vrsSigner "h" "a" "bxy" false
           Sample.genuine);
    try reflexivity.
  split; [right; left; reflexivity|reflexivity].
Defined.

Lemma signOrderHashAsync_falls_back_to_RSV_at_sample :
  signWith Sample.honestSigner "h" "a" false = Ok Sample.genuine.
Proof.
  apply (signOrderHashAsync_falls_back_to_RSV Sample.always Sample.always
           Sample.always Sample.conforms Sample.recovers Sample.parseVRS
           Sample.parseRSV Sample.prefixed Sample.honestSigner
           "h" "a" "xyb" false (mkECSignature 0 "y" "b") Sample.genuine);
    try reflexivity.
  - left. cbn. intros [H|[H|[]]]; discriminate H.
  - split; [right; left; reflexivity|reflexivity].
Defined.

Lemma signOrderHashAsync_InvalidSignature_only_if_both_rejected_at_sample :
  signWith Sample.brokenSigner "h" "a" true = Throw InvalidSignature
  /\ exists raw vrs,
       Sample.brokenSigner "a" (Sample.prefixed "h") = Ok raw
       /\ Sample.parseVRS raw = ParsedSignature vrs
       /\ ~ In (v vrs) validVParamValues.
Proof.
  split; [reflexivity|].
  destruct (signOrderHashAsync_InvalidSignature_only_if_both_rejected
              Sample.always Sample.always Sample.always Sample.conforms
              Sample.recovers Sample.parseVRS Sample.parseRSV Sample.prefixed
              Sample.brokenSigner "h" "a" true)
    as (_ & _ & raw & vrs & rsv & Hraw & Hvrs & _ & _ & _).
  - intros a msg. discriminate.
  - reflexivity.
  - exists raw, vrs. split; [exact Hraw|]. split; [exact Hvrs|].
    injection Hraw as <-. injection Hvrs as <-.
    cbn. intros [H|[H|[]]]; discriminate H.
Defined.

Import Units.

(** The largest draw of 78 digits. *)
Lemma generatePseudoRandomSalt_fits_uint256_at_max :
  exists z,
    generatePseudoRandomSalt 78 (10 ^ 78 - 1) = inject_Z z
    /\ 0 <= z <= 10 ^ 77
    /\ Word.is_uint256 z = true.
Proof.
  apply (generatePseudoRandomSalt_fits_uint256 78 (10 ^ 78 - 1)).
  - lia.
  - split; [vm_compute; discriminate|vm_compute; reflexivity].
Defined.

(** One and a half with one decimal place is fifteen base units; with no
    decimal place it is refused. *)
Lemma toBaseUnitAmount_succeeds_iff_at_sample :
  (exists r, toBaseUnitAmount (3 # 2) 1 = Ok r /\ (r == inject_Z 15)%Q)
  /\ toBaseUnitAmount (3 # 2) 0 = Throw (TooManyDecimalPlaces (3 # 2)).
Proof.
  split.
  - apply (proj1 (proj2 (toBaseUnitAmount_succeeds_iff (3 # 2) 1)) 15).
    reflexivity.
  - apply (proj2 (proj2 (toBaseUnitAmount_succeeds_iff (3 # 2) 0))).
    intros z Hz. change (inject_Z (10 ^ Z.of_nat 0)) with (1 # 1)%Q in Hz.
    unfold Qeq, Qdiv, Qmult, Qinv, inject_Z in Hz. cbn in Hz. lia.
Defined.

Lemma toBaseUnitAmount_toUnitAmount_at_sample :
  exists unit back,
    toUnitAmount 78 wholeAndNonNegative (inject_Z 1500) 3 = Ok unit
    /\ toBaseUnitAmount unit 3 = Ok back
    /\ (back == inject_Z 1500)%Q.
Proof.
  apply (toBaseUnitAmount_toUnitAmount 78 wholeAndNonNegative 1500 3).
  - reflexivity.
  - lia.
Defined.

Lemma toUnitAmount_toBaseUnitAmount_at_sample :
  exists unit,
    toUnitAmount 78 wholeAndNonNegative (30 # 2) 1 = Ok unit
    /\ (unit == 3 # 2)%Q.
Proof.
  apply (toUnitAmount_toBaseUnitAmount 78 wholeAndNonNegative (3 # 2) (30 # 2) 1).
  - reflexivity.
  - reflexivity.
  - lia.
Defined.

End MoreAtSamples.
